(** * Authentication core of the fitness backend, embedded in Rocq

    The development follows the Python sources:

    - [src/core/security.py]  password hashing (passlib [CryptContext]);
    - [src/core/auth.py]      token issuance and the [get_current_user] dependency;
    - [src/curd/user.py]      the user store operations;
    - [src/api/login.py]      the [register] and [login_for_access_token] handlers;
    - [src/schemas.py]        the request and response schemas;
    - [src/core/config.py]    the settings.

    The third-party libraries (python-jose, passlib) are interfaces with
    their contract ([Jose], [CryptContext]).  The module [Jws] follows
    python-jose through the compact serialisation of a token (the split
    at the dots, base64, the comparison of the HMAC), over the parts it
    takes from elsewhere ([JwsPrimitives]), and meets the contract
    [Jose].  The module [Ref] gives executable symbolic parts and a
    symbolic hasher, so that every scenario can be evaluated.  Coroutines
    are run to completion one request at a time: an [async def] is a
    computation of the monad [M]. *)

From stdpp Require Import base gmap strings list sorting.
From Stdlib Require Import ZArith Ascii DecimalString DecimalZ DecimalPos.

Local Open Scope string_scope.
Local Open Scope list_scope.
Local Open Scope Z_scope.

(** ** Python values and exceptions *)

(** The values that occur in a JWT claim set.  A [datetime] is the number
    of microseconds since the epoch (UTC), its resolution in Python. *)
Inductive pyval :=
| VNone
| VBool (b : bool)
| VInt (z : Z)
| VStr (s : string)
| VDatetime (us : Z).

#[global] Instance pyval_eq_dec : EqDecision pyval.
Proof. solve_decision. Defined.

(** The exception classes that the code raises or catches, and those the
    libraries raise through it.  [ExpiredSignatureError] and
    [JWTClaimsError] are subclasses of [JWTError]; [JWSError] and
    [JWKError] are not.  [PasswordValueError] and [PasswordSizeError] are
    passlib's refusals of a secret; [OverflowError] is Python's, for a
    date out of range. *)
Inductive exn :=
| HTTPException (status_code : Z) (detail : string) (headers : gmap string string)
| JWTError
| JWTClaimsError
| ExpiredSignatureError
| JWSError
| ValidationError
| UnknownHashError
| MalformedHashError
| IntegrityError
| PasswordValueError
| PasswordSizeError
| OverflowError
| JWKError.

#[global] Instance exn_eq_dec : EqDecision exn.
Proof. solve_decision. Defined.

(** [isinstance(e, JWTError)] *)
Definition is_JWTError (e : exn) : bool :=
  match e with
  | JWTError | JWTClaimsError | ExpiredSignatureError => true
  | _ => false
  end.

(** [isinstance(e, ValidationError)] *)
Definition is_ValidationError (e : exn) : bool :=
  match e with
  | ValidationError => true
  | _ => false
  end.

(** The outcome of a call: a value, or a raised exception. *)
Inductive result (A : Type) :=
| Return (a : A)
| Raise (e : exn).

Arguments Return {A} a.
Arguments Raise {A} e.

(** [status.HTTP_401_UNAUTHORIZED], [status.HTTP_400_BAD_REQUEST] *)
Definition HTTP_401_UNAUTHORIZED : Z := 401.
Definition HTTP_400_BAD_REQUEST : Z := 400.

(** ** Time *)

(** [timedelta(minutes=m)], in microseconds. *)
Definition timedelta_minutes (m : Z) : Z := m * 60 * 1000000.

(** [timedelta(days=d)], in microseconds. *)
Definition timedelta_days (d : Z) : Z := d * 86400 * 1000000.

(** [datetime.min] and [datetime.max]: the first microsecond of year 1 and
    the last of year 9999, counted from the epoch. *)
Definition datetime_min : Z := -62135596800000000.
Definition datetime_max : Z := 253402300799999999.

Definition datetime_in_range (us : Z) : bool :=
  bool_decide (datetime_min ≤ us ≤ datetime_max).

(** [d + delta] on a [datetime]: Python raises [OverflowError] ("date
    value out of range") when the sum leaves the years 1 to 9999. *)
Definition datetime_add (d delta : Z) : result Z :=
  if datetime_in_range (d + delta) then Return (d + delta) else Raise OverflowError.

(** [calendar.timegm(d.utctimetuple())]: the whole seconds of a datetime;
    the microsecond field is dropped. *)
Definition timegm (us : Z) : Z := us / 1000000.

(** The truth value of an [Optional[timedelta]]: [None] and the zero
    duration are false. *)
Definition timedelta_truthy (d : option Z) : bool :=
  match d with
  | None => false
  | Some us => negb (us =? 0)
  end.

(** ** The subject of a token: [Union[str, Any]], turned into text by [str] *)
Inductive py_subject :=
| SStr (s : string)
| SInt (n : Z).

Definition decimal (z : Z) : string := NilZero.string_of_int (Z.to_int z).

(** [str(subject)] *)
Definition py_str (subject : py_subject) : string :=
  match subject with
  | SStr s => s
  | SInt n => decimal n
  end.

(** ** Settings ([src/core/config.py]) *)
Record Settings := {
  SECRET_KEY : string;
  ALGORITHM : string;
  ACCESS_TOKEN_EXPIRE_MINUTES : Z
}.

(** The defaults of the class: only the secret has none. *)
Definition default_settings (secret : string) : Settings :=
  {| SECRET_KEY := secret; ALGORITHM := "HS256"; ACCESS_TOKEN_EXPIRE_MINUTES := 30 |}.

(** ** Schemas ([src/schemas.py]) *)

Record UserCreate := {
  uc_email : string;
  uc_username : string;
  uc_is_active : bool;
  uc_password : string
}.

Record UserRead := {
  ur_email : string;
  ur_username : string;
  ur_is_active : bool;
  ur_id : Z;
  ur_created_at : Z
}.

Record Token := {
  access_token : string;
  token_type : string
}.

Record TokenPayload := {
  sub : option string
}.

(** Validation of [TokenPayload(sub=v)]: the field is [Optional[str]]. *)
Definition TokenPayload_validate (v : pyval) : result TokenPayload :=
  match v with
  | VStr s => Return {| sub := Some s |}
  | VNone => Return {| sub := None |}
  | _ => Raise ValidationError
  end.

(** The JSON object FastAPI sends for a [UserRead]. *)
Definition UserRead_dump (r : UserRead) : gmap string pyval :=
  {[ "email" := VStr (ur_email r);
     "username" := VStr (ur_username r);
     "is_active" := VBool (ur_is_active r);
     "id" := VInt (ur_id r);
     "created_at" := VDatetime (ur_created_at r) ]}.

(** ** The user table *)

(** Modelled from the spec: [src/model.py] (the [User] table) is not among
    the sources.  A principal is
    [{id, username, email, password_hash, is_active, created_at}], with
    [username] and [email] each globally unique. *)
Record User := {
  id : Z;
  username : string;
  email : string;
  password_hash : string;
  is_active : bool;
  created_at : Z
}.

#[global] Instance User_eq_dec : EqDecision User.
Proof. solve_decision. Defined.

(** The object built by [User(username=..., email=..., password_hash=...,
    is_active=...)] before it is flushed: the store fills in [id] and
    [created_at]. *)
Record NewUser := {
  nu_username : string;
  nu_email : string;
  nu_password_hash : string;
  nu_is_active : bool
}.

(** [UserRead.model_validate(user)] with [from_attributes=True]: the
    response model of [register]. *)
Definition UserRead_from (u : User) : UserRead :=
  {| ur_email := email u;
     ur_username := username u;
     ur_is_active := is_active u;
     ur_id := id u;
     ur_created_at := created_at u |}.

(** ** The world a request runs in, and the monad of the handlers *)

(** The rows of the user table in insertion order, the UTC clock in
    microseconds, and the entropy the password hasher draws its salts
    from ([drawn] counts the salts used so far). *)
Record World := {
  db_users : list User;
  clock : Z;
  entropy : nat → string;
  drawn : nat
}.

Definition M (A : Type) : Type := World → result A * World.

Definition ret {A} (a : A) : M A := λ w, (Return a, w).

Definition raise {A} (e : exn) : M A := λ w, (Raise e, w).

Definition bind {A B} (m : M A) (k : A → M B) : M B :=
  λ w, match m w with
       | (Return a, w') => k a w'
       | (Raise e, w') => (Raise e, w')
       end.

(** A pure library call that may raise. *)
Definition lift {A} (r : result A) : M A := λ w, (r, w).

(** [try: body except (JWTError, ValidationError): handler]: [catches]
    tells which exceptions the clause names; the others propagate. *)
Definition try_except {A} (body : M A) (catches : exn → bool) (handler : M A) : M A :=
  λ w, match body w with
       | (Return a, w') => (Return a, w')
       | (Raise e, w') => if catches e then handler w' else (Raise e, w')
       end.

Notation "x <- m ;; k" := (bind m (λ x, k))
  (at level 100, m at next level, right associativity).

(** [datetime.now(timezone.utc)] *)
Definition datetime_now : M Z := λ w, (Return (clock w), w).

(** ** Bytes and base64 *)

(** [ord(c)] and [chr(n)] on bytes. *)
Definition ord (c : Ascii.ascii) : Z := Z.of_N (N_of_ascii c).
Definition chr (n : Z) : Ascii.ascii := ascii_of_N (Z.to_N n).

(** The URL-safe alphabet of base64. *)
Definition b64_alphabet : string :=
  "ABCDEFGHIJKLMNOPQRSTUVWXYZabcdefghijklmnopqrstuvwxyz0123456789-_".

Definition b64_char (v : Z) : Ascii.ascii :=
  default "A"%char (String.get (Z.to_nat v) b64_alphabet).

(** The value of a character for [base64.urlsafe_b64decode]: it maps
    ["-"] and ["_"] to ["+"] and ["/"] and then reads the standard
    alphabet, so both spellings of 62 and 63 count. *)
Definition b64_value (c : Ascii.ascii) : option Z :=
  let n := ord c in
  if bool_decide (65 ≤ n ≤ 90) then Some (n - 65)
  else if bool_decide (97 ≤ n ≤ 122) then Some (n - 71)
  else if bool_decide (48 ≤ n ≤ 57) then Some (n + 4)
  else if bool_decide (n = 43 ∨ n = 45) then Some 62
  else if bool_decide (n = 47 ∨ n = 95) then Some 63
  else None.

(** [jose.utils.base64url_encode]: [base64.urlsafe_b64encode] with the
    padding removed. *)
Fixpoint base64url_encode (s : string) : string :=
  match s with
  | EmptyString => EmptyString
  | String a EmptyString =>
      String (b64_char (ord a / 4))
        (String (b64_char (ord a mod 4 * 16)) EmptyString)
  | String a (String b EmptyString) =>
      String (b64_char (ord a / 4))
        (String (b64_char (ord a mod 4 * 16 + ord b / 16))
           (String (b64_char (ord b mod 16 * 4)) EmptyString))
  | String a (String b (String c rest)) =>
      String (b64_char (ord a / 4))
        (String (b64_char (ord a mod 4 * 16 + ord b / 16))
           (String (b64_char (ord b mod 16 * 4 + ord c / 64))
              (String (b64_char (ord c mod 64)) (base64url_encode rest))))
  end.

(** [binascii.a2b_base64], as [base64.b64decode] calls it (not strict):
    a character outside the alphabet is skipped; the characters are read
    four at a time, [quad_pos] counting those of the current group and
    [leftchar] holding the bits not yet written; padding that completes a
    group of two or three characters ends the input, any other padding is
    skipped; an incomplete group at the end is an error. *)
Fixpoint a2b_base64 (s : string) (quad_pos pads : nat) (leftchar : Z) : option string :=
  match s with
  | EmptyString => if bool_decide (quad_pos = 0%nat) then Some EmptyString else None
  | String c s' =>
      if bool_decide (c = "="%char) then
        if bool_decide (2 ≤ quad_pos)%nat then
          if bool_decide (4 ≤ quad_pos + S pads)%nat then Some EmptyString
          else a2b_base64 s' quad_pos (S pads) leftchar
        else a2b_base64 s' quad_pos pads leftchar
      else
        match b64_value c with
        | None => a2b_base64 s' quad_pos pads leftchar
        | Some v =>
            match quad_pos with
            | 0%nat => a2b_base64 s' 1%nat 0%nat v
            | 1%nat =>
                String (chr (leftchar * 4 + v / 16))
                  <$> a2b_base64 s' 2%nat 0%nat (v mod 16)
            | 2%nat =>
                String (chr (leftchar * 16 + v / 4))
                  <$> a2b_base64 s' 3%nat 0%nat (v mod 4)
            | _ =>
                String (chr (leftchar * 64 + v))
                  <$> a2b_base64 s' 0%nat 0%nat 0
            end
        end
  end.

(** [jose.utils.base64url_decode]: the input is padded with ["="] to a
    multiple of four characters and given to [base64.urlsafe_b64decode];
    [None] stands for [binascii.Error]. *)
Definition base64url_decode (input : string) : option string :=
  let rem := (String.length input mod 4)%nat in
  let padded :=
    if bool_decide (0 < rem)%nat
    then input +:+ String.string_of_list_ascii (replicate (4 - rem) "="%char)
    else input in
  a2b_base64 padded 0 0 0.

(** Where the decoder stands in its group of four after the encoding of
    [s]. *)
Definition quad_pos_after (s : string) : nat :=
  match (String.length s mod 3)%nat with
  | 0%nat => 0%nat
  | 1%nat => 2%nat
  | _ => 3%nat
  end.

(** ** The libraries, as interfaces *)

(** python-jose.  [jwt_encode claims key algorithm] is
    [jwt.encode(claims, key, algorithm=algorithm)];
    [jwt_decode token key algorithms now] is
    [jwt.decode(token, key, algorithms=algorithms)] run when the clock
    reads [now].  The contract: signing with a supported algorithm
    succeeds; decoding what was signed with the same key and algorithm
    gives the claims back, the [exp] datetime as whole seconds, unless
    [exp] is less than the whole seconds of the clock, which raises
    [ExpiredSignatureError]. *)
Class Jose := {
  jwt_supported : string → bool;
  jwt_encode : gmap string pyval → string → string → result string;
  jwt_decode : string → string → list string → Z → result (gmap string pyval);
  jwt_encode_supported : ∀ claims key algorithm,
    jwt_supported algorithm = true →
    ∃ token, jwt_encode claims key algorithm = Return token;
  jwt_decode_encode : ∀ expire subject key algorithm now token,
    jwt_encode {[ "exp" := VDatetime expire; "sub" := VStr subject ]} key algorithm
      = Return token →
    jwt_decode token key [algorithm] now =
      if bool_decide (timegm expire < timegm now)
      then Raise ExpiredSignatureError
      else Return {[ "exp" := VInt (timegm expire); "sub" := VStr subject ]}
}.

(** *** Secrets, as passlib's bcrypt reads them

    A [str] is held as the bytes of its UTF-8 encoding, which is what
    bcrypt is given. *)

(** A byte [10xxxxxx] continues a character begun before it. *)
Definition utf8_continuation (c : Ascii.ascii) : bool :=
  bool_decide (128 ≤ ord c < 192).

(** [len(s)] of a [str]: its characters, not its bytes. *)
Fixpoint py_len (s : string) : Z :=
  match s with
  | EmptyString => 0
  | String c s' => (if utf8_continuation c then 0 else 1) + py_len s'
  end.

(** Whether the secret has a NUL byte. *)
Fixpoint has_nul (s : string) : bool :=
  match s with
  | EmptyString => false
  | String c s' => bool_decide (c = Ascii.zero) || has_nul s'
  end.

(** [passlib.utils.handlers.MAX_PASSWORD_SIZE] *)
Definition MAX_PASSWORD_SIZE : Z := 4096.

(** The refusal of a secret, by [hash] and by [verify] alike:
    [validate_secret] raises [PasswordSizeError] for more than 4096
    characters, and the bcrypt handler raises [PasswordValueError] for a
    secret with a NUL byte.  [None]: the secret is accepted. *)
Definition secret_error (secret : string) : option exn :=
  if bool_decide (MAX_PASSWORD_SIZE < py_len secret) then Some PasswordSizeError
  else if has_nul secret then Some PasswordValueError
  else None.

(** What bcrypt reads of an accepted secret: its first 72 bytes. *)
Definition bcrypt_key (secret : string) : string := String.substring 0 72 secret.

(** The idents of passlib's bcrypt handler; [identify] looks for one of
    them at the head of the string. *)
Definition bcrypt_idents : list string := ["$2$"; "$2a$"; "$2b$"; "$2x$"; "$2y$"].

(** [s.startswith(p)] *)
Fixpoint startswith (p s : string) : bool :=
  match p with
  | EmptyString => true
  | String a p' =>
      match s with
      | String b s' => bool_decide (a = b) && startswith p' s'
      | EmptyString => false
      end
  end.

Definition has_bcrypt_ident (h : string) : bool :=
  existsb (λ ident, startswith ident h) bcrypt_idents.

(** passlib's [CryptContext(schemes=["bcrypt"], deprecated="auto")].
    [ctx_hash secret salt] is [hash(secret)] when the context draws
    [salt]; [ctx_verify] is [verify]; [ctx_identify h] tells whether
    [identify(h)] names a scheme.  The contract:
    - [hash] raises on a secret that [secret_error] refuses and answers
      on every other;
    - a hash verifies against its own secret, records its salt, and is
      identified;
    - [verify] reads of an accepted secret only its [bcrypt_key], and
      raises on a refused one;
    - [identify] is the test for a bcrypt ident, and [verify] raises
      [UnknownHashError] on a string that is not identified.
    Nothing is assumed about which other secrets verify against a hash. *)
Class CryptContext := {
  ctx_hash : string → string → result string;
  ctx_verify : string → string → result bool;
  ctx_identify : string → bool;
  ctx_hash_refuses : ∀ secret salt e,
    secret_error secret = Some e → ctx_hash secret salt = Raise e;
  ctx_hash_accepts : ∀ secret salt,
    secret_error secret = None → ∃ h, ctx_hash secret salt = Return h;
  ctx_verify_hash : ∀ secret salt h,
    ctx_hash secret salt = Return h → ctx_verify secret h = Return true;
  ctx_verify_truncates : ∀ secret secret' h,
    secret_error secret = None → secret_error secret' = None →
    bcrypt_key secret = bcrypt_key secret' →
    ctx_verify secret h = ctx_verify secret' h;
  ctx_verify_refuses : ∀ secret salt h secret' e,
    ctx_hash secret salt = Return h →
    secret_error secret' = Some e → ctx_verify secret' h = Raise e;
  ctx_hash_salt : ∀ secret salt1 salt2 h,
    ctx_hash secret salt1 = Return h → ctx_hash secret salt2 = Return h →
    salt1 = salt2;
  ctx_identify_hash : ∀ secret salt h,
    ctx_hash secret salt = Return h → ctx_identify h = true;
  ctx_identify_idents : ∀ h, ctx_identify h = has_bcrypt_ident h;
  ctx_verify_unknown : ∀ secret h,
    ctx_identify h = false → ctx_verify secret h = Raise UnknownHashError
}.

(** [bool(x)] of an [Optional] object. *)
Definition truthy {A} (x : option A) : bool :=
  match x with
  | Some _ => true
  | None => false
  end.

Section Backend.

Context {jwt : Jose} {pwd_context : CryptContext}.
Variable settings : Settings.

(** ** [src/core/security.py] *)

Definition verify_password (plain_password hashed_password : string) : result bool :=
  ctx_verify plain_password hashed_password.

(** [pwd_context.hash(secret)]: hashes with the next salt of the
    entropy, or raises.  A call that raises leaves the world as it was:
    the entropy has no state that a later call could observe. *)
Definition pwd_context_hash (secret : string) : M string :=
  λ w, match ctx_hash secret (entropy w (drawn w)) with
       | Return h =>
           (Return h,
            {| db_users := db_users w; clock := clock w;
               entropy := entropy w; drawn := S (drawn w) |})
       | Raise e => (Raise e, w)
       end.

Definition get_password_hash (password : string) : M string :=
  pwd_context_hash password.

(** ** The session *)

(** [select(User).where(column == value)] followed by
    [result.scalars().first()]: the first matching row. *)
Definition select_first (column : User → string) (value : string) : M (option User) :=
  λ w, (Return (find (λ u, bool_decide (column u = value)) (db_users w)), w).

(** The next value of the integer primary key. *)
Definition next_id (rows : list User) : Z := 1 + foldr Z.max 0 (id <$> rows).

(** Modelled from the spec: the unique constraints on [username] and
    [email] of the missing [src/model.py]. *)
Definition unique_conflict (rows : list User) (u : NewUser) : bool :=
  existsb (λ v, bool_decide (username v = nu_username u)
                || bool_decide (email v = nu_email u)) rows.

(** [session.add(db_user); await session.commit();
    await session.refresh(db_user)]: the row gets its [id] and
    [created_at] and is appended to the table, or the commit raises
    [IntegrityError] and the table is left as it was. *)
Definition session_add_commit_refresh (db_user : NewUser) : M User :=
  λ w, if unique_conflict (db_users w) db_user
       then (Raise IntegrityError, w)
       else
         let row := {| id := next_id (db_users w);
                       username := nu_username db_user;
                       email := nu_email db_user;
                       password_hash := nu_password_hash db_user;
                       is_active := nu_is_active db_user;
                       created_at := clock w |} in
         (Return row,
          {| db_users := db_users w ++ [row]; clock := clock w;
             entropy := entropy w; drawn := drawn w |}).

(** ** [src/curd/user.py] *)

Definition create_user (user_create : UserCreate) : M User :=
  hashed_password <- get_password_hash (uc_password user_create) ;;
  let db_user := {| nu_username := uc_username user_create;
                    nu_email := uc_email user_create;
                    nu_password_hash := hashed_password;
                    nu_is_active := true |} in
  session_add_commit_refresh db_user.

Definition get_user_by_email (email0 : string) : M (option User) :=
  select_first email email0.

Definition get_user_by_username (username0 : string) : M (option User) :=
  select_first username username0.

Definition authenticate_user (username0 password : string) : M (option User) :=
  user <- get_user_by_username username0 ;;
  match user with
  | None => ret None
  | Some user =>
      ok <- lift (verify_password password (password_hash user)) ;;
      if negb ok then ret None else ret (Some user)
  end.

(** ** [src/core/auth.py] *)

Definition create_access_token (subject : py_subject) (expires_delta : option Z) : M string :=
  now <- datetime_now ;;
  expire <-
    lift (if timedelta_truthy expires_delta
          then datetime_add now (default 0 expires_delta)
          else datetime_add now (timedelta_minutes (ACCESS_TOKEN_EXPIRE_MINUTES settings))) ;;
  let to_encode : gmap string pyval :=
    {[ "exp" := VDatetime expire; "sub" := VStr (py_str subject) ]} in
  lift (jwt_encode to_encode (SECRET_KEY settings) (ALGORITHM settings)).

Definition credentials_exception : exn :=
  HTTPException HTTP_401_UNAUTHORIZED "Could not validate credentials"
    {[ "WWW-Authenticate" := "Bearer" ]}.

(** [jwt.decode], reading the clock. *)
Definition jwt_decode_now (token key : string) (algorithms : list string)
  : M (gmap string pyval) :=
  λ w, (jwt_decode token key algorithms (clock w), w).

Definition get_current_user (token : string) : M User :=
  token_data <-
    try_except
      (payload <- jwt_decode_now token (SECRET_KEY settings) [ALGORITHM settings] ;;
       let username0 := payload !! "sub" in
       match username0 with
       | None | Some VNone => raise credentials_exception
       | Some v => lift (TokenPayload_validate v)
       end)
      (λ e, is_JWTError e || is_ValidationError e)
      (raise credentials_exception) ;;
  user <- match sub token_data with
          | Some name => get_user_by_username name
          | None => ret None
          end ;;
  match user with
  | None => raise credentials_exception
  | Some user => ret user
  end.

(** ** [src/api/login.py] *)

Definition register (user_in : UserCreate) : M UserRead :=
  by_username <- get_user_by_username (uc_username user_in) ;;
  taken <- (if truthy by_username then ret true
            else by_email <- get_user_by_email (uc_email user_in) ;;
                 ret (truthy by_email)) ;;
  if (taken : bool)
  then raise (HTTPException HTTP_400_BAD_REQUEST "User already exists." ∅)
  else
    new_user <- create_user user_in ;;
    ret (UserRead_from new_user).

Definition login_for_access_token (form_username form_password : string) : M Token :=
  user <- authenticate_user form_username form_password ;;
  match user with
  | None =>
      raise (HTTPException HTTP_401_UNAUTHORIZED "Incorrect username or password"
               {[ "WWW-Authenticate" := "Bearer" ]})
  | Some user =>
      if negb (is_active user)
      then raise (HTTPException 400 "Inactive user" ∅)
      else
        let access_token_expires :=
          timedelta_minutes (ACCESS_TOKEN_EXPIRE_MINUTES settings) in
        token <- create_access_token (SStr (username user)) (Some access_token_expires) ;;
        ret {| access_token := token; token_type := "bearer" |}
  end.

End Backend.

(** ** The compact serialisation of python-jose *)

(** [s.rsplit(".", 1)], when it gives two parts: the split at the last
    dot. *)
Fixpoint rsplit_dot (s : string) : option (string * string) :=
  match s with
  | EmptyString => None
  | String c s' =>
      match rsplit_dot s' with
      | Some (a, b) => Some (String c a, b)
      | None => if bool_decide (c = "."%char) then Some (EmptyString, s') else None
      end
  end.

(** [s.split(".", 1)], when it gives two parts: the split at the first
    dot. *)
Fixpoint split_dot (s : string) : option (string * string) :=
  match s with
  | EmptyString => None
  | String c s' =>
      if bool_decide (c = "."%char) then Some (EmptyString, s')
      else match split_dot s' with
           | Some (a, b) => Some (String c a, b)
           | None => None
           end
  end.

(** Whether a string has no dot. *)
Fixpoint dotless (s : string) : bool :=
  match s with
  | EmptyString => true
  | String c s' => negb (bool_decide (c = "."%char)) && dotless s'
  end.

(** The algorithms that sign with a shared secret. *)
Definition hmac_algorithms : list string := ["HS256"; "HS384"; "HS512"].

(** What python-jose takes from elsewhere: the HMAC of [hmac] and
    [hashlib], the JSON texts of [json], and the validation of the
    registered claims.  [hmac_sign algorithm key msg] is
    [HMACKey(key, algorithm).sign(msg)]; [header_dumps algorithm] is the
    text of the header [{"alg": algorithm, "typ": "JWT"}], and
    [header_alg text] the ["alg"] of the header that [text] is, when it is
    a JSON object with one; [claims_dumps] is [json.dumps] on a claim
    set; [claims_loads payload now] is [json.loads(payload)] followed by
    the validation of the claims when the clock reads [now].  Nothing is
    assumed of the HMAC. *)
Class JwsPrimitives := {
  hmac_sign : string → string → string → string;
  header_dumps : string → string;
  header_alg : string → option string;
  claims_dumps : gmap string pyval → string;
  claims_loads : string → Z → result (gmap string pyval);
  header_alg_dumps : ∀ algorithm,
    algorithm ∈ hmac_algorithms → header_alg (header_dumps algorithm) = Some algorithm;
  claims_loads_dumps : ∀ exp0 subject now,
    claims_loads (claims_dumps {[ "exp" := VInt exp0; "sub" := VStr subject ]}) now =
      if bool_decide (exp0 < timegm now)
      then Raise ExpiredSignatureError
      else Return {[ "exp" := VInt exp0; "sub" := VStr subject ]}
}.

Module Jws.

Section Jws.

Context {prim : JwsPrimitives}.

(** [jwt.encode] turns a [datetime] under ["exp"], ["iat"] or ["nbf"]
    into its whole seconds. *)
Definition intdate_claim (v : pyval) : pyval :=
  match v with
  | VDatetime us => VInt (timegm us)
  | _ => v
  end.

(** [jws.sign]: the header and the claims, each in base64, and the HMAC
    of the two, joined by dots. *)
Definition sign (claims : gmap string pyval) (key algorithm : string) : result string :=
  if bool_decide (algorithm ∈ hmac_algorithms) then
    let signing_input :=
      base64url_encode (header_dumps algorithm) +:+ "."
      +:+ base64url_encode (claims_dumps claims) in
    Return (signing_input +:+ "."
            +:+ base64url_encode (hmac_sign algorithm key signing_input))
  else Raise JWSError.

(** [jwt.encode] *)
Definition encode (claims : gmap string pyval) (key algorithm : string) : result string :=
  sign (alter intdate_claim "exp"
          (alter intdate_claim "iat" (alter intdate_claim "nbf" claims)))
    key algorithm.

(** [jws._load]: the algorithm of the header, the payload, the signing
    input and the signature of a token. *)
Definition load (jwt : string) : result (string * string * string * string) :=
  match rsplit_dot jwt with
  | None => Raise JWSError
  | Some (signing_input, crypto_segment) =>
    match split_dot signing_input with
    | None => Raise JWSError
    | Some (header_segment, claims_segment) =>
      match base64url_decode header_segment ≫= header_alg with
      | None => Raise JWSError
      | Some alg =>
        match base64url_decode claims_segment, base64url_decode crypto_segment with
        | Some payload, Some signature =>
            Return (alg, payload, signing_input, signature)
        | _, _ => Raise JWSError
        end
      end
    end
  end.

(** [jws.verify]: the algorithm of the header has to be among
    [algorithms], and the signature has to be the HMAC of the signing
    input.  An algorithm that is no HMAC needs a key pair: with a secret
    for a key, building the key raises [JWKError]. *)
Definition verify (token key : string) (algorithms : list string) : result string :=
  match load token with
  | Raise e => Raise e
  | Return (alg, payload, signing_input, signature) =>
      if bool_decide (alg = "") then Raise JWSError
      else if negb (bool_decide (alg ∈ algorithms)) then Raise JWSError
      else if negb (bool_decide (alg ∈ hmac_algorithms)) then Raise JWKError
      else if bool_decide (hmac_sign alg key signing_input = signature)
      then Return payload
      else Raise JWSError
  end.

(** [jwt.decode]: a [JWSError] of [jws.verify] is raised again as a
    [JWTError]; then the claims are read and validated. *)
Definition decode (token key : string) (algorithms : list string) (now : Z)
  : result (gmap string pyval) :=
  match verify token key algorithms with
  | Return payload => claims_loads payload now
  | Raise JWSError => Raise JWTError
  | Raise e => Raise e
  end.

(** Whether the last segment of a token is, in base64, the HMAC of what
    precedes its last dot. *)
Definition signature_matches (token key algorithm : string) : bool :=
  match rsplit_dot token with
  | Some (signing_input, crypto_segment) =>
      bool_decide (base64url_decode crypto_segment
                   = Some (hmac_sign algorithm key signing_input))
  | None => false
  end.

End Jws.

End Jws.

(** ** Symbolic reference implementations

    A password hash is the ident ["$2b$"], the salt and what bcrypt reads
    of the secret; the HMAC of a token is a keyed checksum, and the texts
    of its header and claims are sequences of fields.  None hides
    anything: they stand for the libraries where a scenario has to be
    evaluated, and show that the contracts above can be met. *)
Module Ref.

(** Fields of a token are closed by a dot; a dot or a tilde inside a field
    is preceded by a tilde. *)
Fixpoint escape (s : string) : string :=
  match s with
  | EmptyString => EmptyString
  | String c s' =>
      if bool_decide (c = "."%char ∨ c = "~"%char)
      then String "~" (String c (escape s'))
      else String c (escape s')
  end.

Definition field (s : string) : string := escape s +:+ ".".

Definition cons_field (c : Ascii.ascii) (p : string * string) : string * string :=
  (String c p.1, p.2).

(** Reads one field off the front: the field and what follows it. *)
Fixpoint take_field (t : string) : option (string * string) :=
  match t with
  | EmptyString => None
  | String c t' =>
      if bool_decide (c = "."%char) then Some (EmptyString, t')
      else if bool_decide (c = "~"%char) then
        match t' with
        | EmptyString => None
        | String d t'' => cons_field d <$> take_field t''
        end
      else cons_field c <$> take_field t'
  end.

(** An optional field: ["+"] and the field, or ["-"]. *)
Definition opt_field (o : option string) : string :=
  match o with
  | Some s => "+" +:+ field s
  | None => "-"
  end.

Definition take_opt_field (t : string) : option (option string * string) :=
  match t with
  | String c t' =>
      if bool_decide (c = "+"%char) then
        match take_field t' with
        | Some (s, r) => Some (Some s, r)
        | None => None
        end
      else if bool_decide (c = "-"%char) then Some (None, t')
      else None
  | EmptyString => None
  end.

Definition parse_decimal (s : string) : option Z :=
  Z.of_int <$> NilZero.int_of_string s.

(** The whole seconds of an [exp] claim, as [jwt.encode] writes it. *)
Definition intdate (v : pyval) : option Z :=
  match v with
  | VDatetime us => Some (timegm us)
  | VInt z => Some z
  | _ => None
  end.

Definition claim_text (v : pyval) : option string :=
  match v with
  | VStr s => Some s
  | _ => None
  end.

(** The claim set of a decoded token. *)
Definition claims_of (exp0 : option Z) (sub0 : option string) : gmap string pyval :=
  match exp0, sub0 with
  | Some e, Some s => {[ "exp" := VInt e; "sub" := VStr s ]}
  | Some e, None => {[ "exp" := VInt e ]}
  | None, Some s => {[ "sub" := VStr s ]}
  | None, None => ∅
  end.

Definition parse_exp (o : option string) : option (option Z) :=
  match o with
  | None => Some None
  | Some s => Some <$> parse_decimal s
  end.

(** The [exp] check of [jwt.decode]: a token without [exp] never expires. *)
Definition expired (exp0 : option Z) (now : Z) : bool :=
  match exp0 with
  | Some e => bool_decide (e < timegm now)
  | None => false
  end.

Fixpoint strip_prefix (p s : string) : option string :=
  match p, s with
  | EmptyString, _ => Some s
  | String a p', String b s' => if bool_decide (a = b) then strip_prefix p' s' else None
  | String _ _, EmptyString => None
  end.

(** The hash of an accepted secret: the ident, the salt, and what bcrypt
    reads of the secret. *)
Definition hash (secret salt : string) : string :=
  "$2b$" +:+ field salt +:+ bcrypt_key secret.

Definition hash_secret (secret salt : string) : result string :=
  match secret_error secret with
  | Some e => Raise e
  | None => Return (hash secret salt)
  end.

Definition identify (h : string) : bool := has_bcrypt_ident h.

(** In passlib's order: the scheme is identified, the size of the secret
    checked, the hash parsed, the secret searched for a NUL, and the
    digest compared. *)
Definition verify (secret h : string) : result bool :=
  if negb (identify h) then Raise UnknownHashError
  else if bool_decide (MAX_PASSWORD_SIZE < py_len secret) then Raise PasswordSizeError
  else match strip_prefix "$2b$" h ≫= take_field with
       | Some (_, digest) =>
           if has_nul secret then Raise PasswordValueError
           else Return (bool_decide (digest = bcrypt_key secret))
       | None => Raise MalformedHashError
       end.

(** *** The parts of python-jose that [Jws] takes from elsewhere *)

(** The size of the digest of an HMAC algorithm. *)
Definition digest_size (algorithm : string) : nat :=
  if bool_decide (algorithm = "HS384") then 48%nat
  else if bool_decide (algorithm = "HS512") then 64%nat
  else 32%nat.

(** A keyed checksum in the place of the HMAC: each byte of the key and
    of the message is folded into one byte of the digest. *)
Fixpoint absorb (s : string) (i : nat) (acc : list Z) : list Z :=
  match s with
  | EmptyString => acc
  | String c s' =>
      let j := (i mod length acc)%nat in
      absorb s' (S i) (<[j := (31 * (acc !!! j) + ord c + 1) mod 256]> acc)
  end.

Definition hmac (algorithm key msg : string) : string :=
  String.string_of_list_ascii
    (chr <$> absorb (key +:+ "." +:+ msg) 0 (replicate (digest_size algorithm) 0)).

(** The header is the field of its algorithm. *)
Definition header_alg (text : string) : option string :=
  match take_field text with
  | Some (algorithm, EmptyString) => Some algorithm
  | _ => None
  end.

(** The text of a claim set: its ["exp"] and its ["sub"], as optional
    fields. *)
Definition claims_dumps (claims : gmap string pyval) : string :=
  opt_field (decimal <$> (claims !! "exp" ≫= intdate))
  +:+ opt_field (claims !! "sub" ≫= claim_text).

Definition claims_loads (payload : string) (now : Z) : result (gmap string pyval) :=
  match take_opt_field payload with
  | Some (exp_text, t) =>
      match take_opt_field t, parse_exp exp_text with
      | Some (sub0, EmptyString), Some exp0 =>
          if expired exp0 now
          then Raise ExpiredSignatureError
          else Return (claims_of exp0 sub0)
      | _, _ => Raise JWTError
      end
  | None => Raise JWTError
  end.

(** The [n]-th salt is the decimal text of [n]. *)
Definition salts (n : nat) : string := decimal (Z.of_nat n).

Definition settings : Settings := default_settings "server-secret".

(** An empty store on 14 November 2023, 22:13:20.7 UTC. *)
Definition world0 : World :=
  {| db_users := []; clock := 1700000000700000; entropy := salts; drawn := 0 |}.

End Ref.

(** ** Auxiliary notions used in the statements *)

(** The expiry [create_access_token] writes into a token issued when the
    clock reads [now]. *)
Definition token_expiry (settings : Settings) (now : Z) (expires_delta : option Z) : Z :=
  if timedelta_truthy expires_delta
  then now + default 0 expires_delta
  else now + timedelta_minutes (ACCESS_TOKEN_EXPIRE_MINUTES settings).

(** What [get_current_user] answers once the subject of the token is known:
    the first row of that name, or the 401. *)
Definition resolve (name : string) (w : World) : result User * World :=
  (match find (λ u, bool_decide (username u = name)) (db_users w) with
   | Some user => Return user
   | None => Raise credentials_exception
   end, w).

(** The 401 of the login handler. *)
Definition login_unauthorized : exn :=
  HTTPException HTTP_401_UNAUTHORIZED "Incorrect username or password"
    {[ "WWW-Authenticate" := "Bearer" ]}.

(** ** Scenarios *)
Module Scenario.

(** The registration of the specification's scenario; the client also
    sends [is_active = false]. *)
Definition alice_in : UserCreate :=
  {| uc_email := "a@x.com"; uc_username := "alice";
     uc_is_active := false; uc_password := "secret1" |}.

Definition alice : User :=
  {| id := 1; username := "alice"; email := "a@x.com";
     password_hash := Ref.hash "secret1" (Ref.salts 0);
     is_active := true; created_at := clock Ref.world0 |}.

(** The store after [alice_in] was registered in [Ref.world0]. *)
Definition world_alice : World :=
  {| db_users := [alice]; clock := clock Ref.world0;
     entropy := Ref.salts; drawn := 1 |}.

(** A second principal, registered after [alice]. *)
Definition clive_in : UserCreate :=
  {| uc_email := "c@x.com"; uc_username := "clive";
     uc_is_active := true; uc_password := "secret2" |}.

Definition clive : User :=
  {| id := 2; username := "clive"; email := "c@x.com";
     password_hash := Ref.hash "secret2" (Ref.salts 1);
     is_active := true; created_at := clock Ref.world0 |}.

Definition world_two : World :=
  {| db_users := [alice; clive]; clock := clock Ref.world0;
     entropy := Ref.salts; drawn := 2 |}.

(** A registration with the empty username, which [UserCreate] accepts. *)
Definition nameless_in : UserCreate :=
  {| uc_email := "n@x.com"; uc_username := "";
     uc_is_active := true; uc_password := "secret3" |}.

Definition nameless : User :=
  {| id := 1; username := ""; email := "n@x.com";
     password_hash := Ref.hash "secret3" (Ref.salts 0);
     is_active := true; created_at := clock Ref.world0 |}.

Definition world_nameless : World :=
  {| db_users := [nameless]; clock := clock Ref.world0;
     entropy := Ref.salts; drawn := 1 |}.

(** [alice] after an administrator deactivated her account. *)
Definition alice_deactivated : User :=
  {| id := 1; username := "alice"; email := "a@x.com";
     password_hash := Ref.hash "secret1" (Ref.salts 0);
     is_active := false; created_at := clock Ref.world0 |}.

(** One minute after [world_alice], with the account deactivated. *)
Definition world_deactivated : World :=
  {| db_users := [alice_deactivated];
     clock := clock Ref.world0 + timedelta_minutes 1;
     entropy := Ref.salts; drawn := 1 |}.

(** One hour after [world_alice]. *)
Definition world_later : World :=
  {| db_users := [alice];
     clock := clock Ref.world0 + timedelta_minutes 60;
     entropy := Ref.salts; drawn := 1 |}.

(** One minute after [world_alice], with the row deleted. *)
Definition world_deleted : World :=
  {| db_users := [];
     clock := clock Ref.world0 + timedelta_minutes 1;
     entropy := Ref.salts; drawn := 1 |}.

(** The tokens that the reference library issues under the key of
    [Ref.settings]: to [alice], [clive] and [dora] and to the empty
    subject, with the expiry 1700001800; to [alice] with the expiry
    1700000000; and with the expiry 1700001800 and no subject. *)
Definition alice_token : string :=
  "SFMyNTYu.KzE3MDAwMDE4MDAuK2FsaWNlLg.UaAit58vCFiNY2G8gwCZ5tp6T1Vadi9Me0Y0TkVCeE4".

Definition clive_token : string :=
  "SFMyNTYu.KzE3MDAwMDE4MDAuK2NsaXZlLg.UaAit58vCFiNa2G8hAyZ5tp6T1Vadi9Me0Y0TkVCeE4".

Definition dora_token : string :=
  "SFMyNTYu.KzE3MDAwMDE4MDAuK2RvcmEu.UaAit58vCFiNb2S-mfeiR056T1Vadi9Me0Y0TkVCeE4".

Definition nameless_token : string :=
  "SFMyNTYu.KzE3MDAwMDE4MDAuKy4.UaAit58vCFjUUXNmdS9UR056T1Vadi9Me0Y0TkVCeE4".

Definition alice_token_early : string :=
  "SFMyNTYu.KzE3MDAwMDAwMDAuK2FsaWNlLg.UZxlt58vCFiNY2G8gwCZ5tp6T1Vadi9Me0Y0TkVCeE4".

Definition no_sub_token : string :=
  "SFMyNTYu.KzE3MDAwMDE4MDAuLQ.UaAit58vCFmsZHNmdS9UR056T1Vadi9Me0Y0TkVCeE4".

(** The token of [alice] with the two unused low bits of its last
    character changed; and the claims of [clive] under the signature of
    the token of [alice]. *)
Definition alice_token_low_bits : string :=
  "SFMyNTYu.KzE3MDAwMDE4MDAuK2FsaWNlLg.UaAit58vCFiNY2G8gwCZ5tp6T1Vadi9Me0Y0TkVCeE5".

Definition alice_token_forged : string :=
  "SFMyNTYu.KzE3MDAwMDE4MDAuK2NsaXZlLg.UaAit58vCFiNY2G8gwCZ5tp6T1Vadi9Me0Y0TkVCeE4".

(** A password with a NUL byte, which [UserCreate] accepts (its only
    constraint is a length of at least 6), and the registration of
    [alice] with it. *)
Definition nul_password : string := String Ascii.zero "secret".

Definition alice_nul_in : UserCreate :=
  {| uc_email := "a@x.com"; uc_username := "alice";
     uc_is_active := true; uc_password := nul_password |}.

(** Two passwords of 73 bytes that differ in the last one only. *)
Definition seventy_two : string := String.string_of_list_ascii (replicate 72 "a"%char).
Definition long_b : string := seventy_two +:+ "b".
Definition long_c : string := seventy_two +:+ "c".

(** The world after one salt was drawn from [Ref.world0]. *)
Definition world_drawn : World :=
  {| db_users := []; clock := clock Ref.world0; entropy := Ref.salts; drawn := 1 |}.

(** A world in which the source of randomness gives the same salt again. *)
Definition world_repeating : World :=
  {| db_users := []; clock := clock Ref.world0; entropy := λ _, "0"; drawn := 0 |}.

End Scenario.

(** ** Fitness records ([src/schemas.py], [src/crud/fitness.py],
    [src/api/fitness.py]) *)

Section Fitness.

Context {jwt : Jose}.
Variable settings : Settings.

(** Python's [float]: the handlers carry the two measurements and compute
    nothing with them. *)
Variable float : Type.

(** [FitnessRecordCreate], as it reaches a handler: already validated. *)
Record FitnessRecordCreate := {
  age : Z;
  gender : string;
  height_in : float;
  weight_lbs : float;
  activity_level : string;
  fitness_goal : string
}.

(** A row of the fitness table.  [src/model.py] is not among the sources:
    the row has the attributes that [FitnessRecordRead] reads off it, the
    six of the request ([fr_data]) and [id], [user_id], [created_at]. *)
Record FitnessRecord := {
  fr_id : Z;
  fr_user_id : Z;
  fr_created_at : Z;
  fr_data : FitnessRecordCreate
}.

(** What a request to the fitness endpoints sees: the world of the
    resolver and the fitness table, rows in insertion order. *)
Record FitnessWorld := {
  fw_users : World;
  fw_records : list FitnessRecord
}.

Definition MF (A : Type) : Type := FitnessWorld → result A * FitnessWorld.

Definition bindF {A B} (m : MF A) (k : A → MF B) : MF B :=
  λ s, match m s with
       | (Return a, s') => k a s'
       | (Raise e, s') => (Raise e, s')
       end.

(** A computation on the user store, run inside such a request. *)
Definition on_users {A} (m : M A) : MF A :=
  λ s, let (r, w') := m (fw_users s) in
       (r, {| fw_users := w'; fw_records := fw_records s |}).

(** The next value of the integer primary key of the fitness table. *)
Definition next_record_id (rows : list FitnessRecord) : Z :=
  1 + foldr Z.max 0 (fr_id <$> rows).

(** [ORDER BY created_at DESC]: newest first; rows of the same instant
    stay in insertion order (SQL leaves their order open). *)
Fixpoint insert_desc (r : FitnessRecord) (l : list FitnessRecord) : list FitnessRecord :=
  match l with
  | [] => [r]
  | x :: l' =>
      if bool_decide (fr_created_at x ≤ fr_created_at r)
      then r :: l
      else x :: insert_desc r l'
  end.

Definition order_by_created_at_desc (l : list FitnessRecord) : list FitnessRecord :=
  foldr insert_desc [] l.

(** Newest first. *)
Definition newest_first (l : list FitnessRecord) : Prop :=
  StronglySorted (λ x y : FitnessRecord, fr_created_at y ≤ fr_created_at x) l.

(** [LIMIT n]: the first [n] rows; SQLite reads a negative [n] as no
    bound. *)
Definition sql_limit {A} (n : Z) (l : list A) : list A :=
  if bool_decide (n < 0) then l else take (Z.to_nat n) l.

(** *** [src/crud/fitness.py] *)

(** A [FitnessRecord] built from the fields of [record_in.model_dump()]
    and [user_id], then [session.add], [commit] and [refresh]. *)
Definition create_fitness_record (record_in : FitnessRecordCreate) (user_id : Z)
  : MF FitnessRecord :=
  λ s, let db_record := {| fr_id := next_record_id (fw_records s);
                           fr_user_id := user_id;
                           fr_created_at := clock (fw_users s);
                           fr_data := record_in |} in
       (Return db_record,
        {| fw_users := fw_users s; fw_records := fw_records s ++ [db_record] |}).

Definition get_user_fitness_records (user_id : Z) (limit : Z) : MF (list FitnessRecord) :=
  λ s, (Return
          (sql_limit limit
             (order_by_created_at_desc
                (filter (λ r, fr_user_id r = user_id) (fw_records s)))),
        s).

(** *** [src/api/fitness.py] *)

Definition add_fitness_record (token : string) (record_in : FitnessRecordCreate)
  : MF FitnessRecord :=
  bindF (on_users (get_current_user settings token))
    (λ current_user, create_fitness_record record_in (id current_user)).

(** The query parameter [limit: int = 5]. *)
Definition read_fitness_records (token : string) (limit : option Z)
  : MF (list FitnessRecord) :=
  bindF (on_users (get_current_user settings token))
    (λ current_user, get_user_fitness_records (id current_user) (default 5 limit)).

End Fitness.

Arguments age {float} _.
Arguments gender {float} _.
Arguments height_in {float} _.
Arguments weight_lbs {float} _.
Arguments activity_level {float} _.
Arguments fitness_goal {float} _.
Arguments fr_id {float} _.
Arguments fr_user_id {float} _.
Arguments fr_created_at {float} _.
Arguments fr_data {float} _.
Arguments fw_users {float} _.
Arguments fw_records {float} _.

(** ** Further scenarios *)
Module Cases.

Import Scenario.

(** [alice] with a [password_hash] column that holds no hash. *)
Definition alice_corrupt : User :=
  {| id := 1; username := "alice"; email := "a@x.com";
     password_hash := "not-a-hash";
     is_active := true; created_at := clock Ref.world0 |}.

Definition world_corrupt : World :=
  {| db_users := [alice_corrupt]; clock := clock Ref.world0;
     entropy := Ref.salts; drawn := 1 |}.

(** A principal whose password has 73 bytes. *)
Definition dora_in : UserCreate :=
  {| uc_email := "d@x.com"; uc_username := "dora";
     uc_is_active := true; uc_password := long_c |}.

Definition dora : User :=
  {| id := 1; username := "dora"; email := "d@x.com";
     password_hash := Ref.hash long_c (Ref.salts 0);
     is_active := true; created_at := clock Ref.world0 |}.

Definition world_dora : World :=
  {| db_users := [dora]; clock := clock Ref.world0;
     entropy := Ref.salts; drawn := 1 |}.

(** Measurements as rationals. *)
Definition Q : Type := QArith_base.Q.

Definition first_record : FitnessRecordCreate Q :=
  {| age := 30; gender := "Female"; height_in := (QArith_base.Qmake 137 2); weight_lbs := (QArith_base.Qmake 150 1);
     activity_level := "lightly_active"; fitness_goal := "maintain" |}.

Definition second_record : FitnessRecordCreate Q :=
  {| age := 30; gender := "Female"; height_in := (QArith_base.Qmake 137 2); weight_lbs := (QArith_base.Qmake 148 1);
     activity_level := "highly_active"; fitness_goal := "lose_weight" |}.

(** A row of [alice], written a minute before [world_two]; and one of
    [clive]. *)
Definition alice_row : FitnessRecord Q :=
  {| fr_id := 1; fr_user_id := 1;
     fr_created_at := clock Ref.world0 - timedelta_minutes 1;
     fr_data := first_record |}.

Definition clive_row : FitnessRecord Q :=
  {| fr_id := 2; fr_user_id := 2;
     fr_created_at := clock Ref.world0 - timedelta_minutes 1;
     fr_data := first_record |}.

Definition fitness_world : FitnessWorld Q :=
  {| fw_users := world_two; fw_records := [alice_row; clive_row] |}.

(** The row [add_fitness_record] creates for [alice] in [fitness_world]. *)
Definition alice_new_row : FitnessRecord Q :=
  {| fr_id := 3; fr_user_id := 1; fr_created_at := clock Ref.world0;
     fr_data := second_record |}.

Definition fitness_world_added : FitnessWorld Q :=
  {| fw_users := world_two; fw_records := [alice_row; clive_row; alice_new_row] |}.

End Cases.

(** * Properties *)

(** ** The reference implementations meet the contracts *)

Lemma take_field_field (s r : string) :
  Ref.take_field (Ref.field s +:+ r) = Some (s, r).
Proof.
  unfold Ref.field. induction s as [|c s IH]; simpl; [done|].
  case_bool_decide as Hc; simpl.
  - by rewrite IH.
  - rewrite !bool_decide_eq_false_2 by tauto. by rewrite IH.
Qed.

Lemma take_field_field_end (s : string) :
  Ref.take_field (Ref.field s) = Some (s, EmptyString).
Proof.
  unfold Ref.field. induction s as [|c s IH]; simpl; [done|].
  case_bool_decide as Hc; simpl.
  - by rewrite IH.
  - rewrite !bool_decide_eq_false_2 by tauto. by rewrite IH.
Qed.

Lemma take_opt_field_opt_field (o : option string) (r : string) :
  Ref.take_opt_field (Ref.opt_field o +:+ r) = Some (o, r).
Proof.
  destruct o as [s|]; [|done].
  change (Ref.opt_field (Some s) +:+ r) with (String "+" (Ref.field s +:+ r)).
  unfold Ref.take_opt_field.
  rewrite bool_decide_eq_true_2 by done. by rewrite take_field_field.
Qed.

Lemma parse_decimal_decimal (z : Z) : Ref.parse_decimal (decimal z) = Some z.
Proof.
  unfold Ref.parse_decimal, decimal.
  rewrite NilZero.isi.
  - simpl. by rewrite DecimalZ.of_to.
  - destruct z; simpl; [done| |done].
    intros [=H]. by apply Unsigned.to_uint_nonnil in H.
  - destruct z; simpl; [done|done|].
    intros [=H]. by apply Unsigned.to_uint_nonnil in H.
Qed.

Lemma decimal_inj (x y : Z) : decimal x = decimal y → x = y.
Proof.
  intros H. apply (f_equal Ref.parse_decimal) in H.
  rewrite !parse_decimal_decimal in H. congruence.
Qed.

Lemma salts_fresh (i j : nat) : i ≠ j → Ref.salts i ≠ Ref.salts j.
Proof. unfold Ref.salts. intros Hij H. apply decimal_inj in H. lia. Qed.
Lemma ref_hash_parts (secret salt : string) :
  Ref.strip_prefix "$2b$" (Ref.hash secret salt) ≫= Ref.take_field
    = Some (salt, bcrypt_key secret).
Proof.
  change (Ref.strip_prefix "$2b$" (Ref.hash secret salt))
    with (Some (Ref.field salt +:+ bcrypt_key secret)).
  apply take_field_field.
Qed.

(** The two halves of [secret_error]. *)
Lemma secret_error_None (secret : string) :
  secret_error secret = None ↔
  bool_decide (MAX_PASSWORD_SIZE < py_len secret) = false ∧ has_nul secret = false.
Proof.
  unfold secret_error.
  destruct (bool_decide _), (has_nul secret); split; (done || by intros [? ?]).
Qed.

Lemma ref_hash_secret_Return (secret salt h : string) :
  Ref.hash_secret secret salt = Return h →
  secret_error secret = None ∧ h = Ref.hash secret salt.
Proof.
  unfold Ref.hash_secret. destruct (secret_error secret); [done|].
  by intros [= <-].
Qed.

(** Verification against a reference hash, in full. *)
Lemma ref_verify_other (secret secret' salt : string) :
  Ref.verify secret' (Ref.hash secret salt) =
    match secret_error secret' with
    | Some e => Raise e
    | None => Return (bool_decide (bcrypt_key secret = bcrypt_key secret'))
    end.
Proof.
  unfold Ref.verify, secret_error.
  change (Ref.identify (Ref.hash secret salt)) with true.
  rewrite ref_hash_parts. cbn [negb].
  destruct (bool_decide (_ < _)); [done|].
  by destruct (has_nul secret').
Qed.

Lemma ref_hash_refuses (secret salt : string) (e : exn) :
  secret_error secret = Some e → Ref.hash_secret secret salt = Raise e.
Proof. unfold Ref.hash_secret. by intros ->. Qed.

Lemma ref_hash_accepts (secret salt : string) :
  secret_error secret = None → ∃ h, Ref.hash_secret secret salt = Return h.
Proof. unfold Ref.hash_secret. intros ->. eauto. Qed.

Lemma ref_verify_hash (secret salt h : string) :
  Ref.hash_secret secret salt = Return h → Ref.verify secret h = Return true.
Proof.
  intros [Hok ->]%ref_hash_secret_Return.
  rewrite ref_verify_other, Hok. by rewrite bool_decide_eq_true_2.
Qed.

Lemma ref_verify_truncates (secret secret' h : string) :
  secret_error secret = None → secret_error secret' = None →
  bcrypt_key secret = bcrypt_key secret' →
  Ref.verify secret h = Ref.verify secret' h.
Proof.
  intros [Hsize Hnul]%secret_error_None [Hsize' Hnul']%secret_error_None Hkey.
  unfold Ref.verify. by rewrite Hsize, Hsize', Hnul, Hnul', Hkey.
Qed.

Lemma ref_verify_refuses (secret salt h secret' : string) (e : exn) :
  Ref.hash_secret secret salt = Return h →
  secret_error secret' = Some e → Ref.verify secret' h = Raise e.
Proof.
  intros [_ ->]%ref_hash_secret_Return He.
  by rewrite ref_verify_other, He.
Qed.

Lemma ref_hash_salt (secret salt1 salt2 h : string) :
  Ref.hash_secret secret salt1 = Return h → Ref.hash_secret secret salt2 = Return h →
  salt1 = salt2.
Proof.
  intros [_ ->]%ref_hash_secret_Return [_ H]%ref_hash_secret_Return.
  apply (f_equal (λ h, Ref.strip_prefix "$2b$" h ≫= Ref.take_field)) in H.
  rewrite !ref_hash_parts in H. congruence.
Qed.

Lemma ref_identify_hash (secret salt h : string) :
  Ref.hash_secret secret salt = Return h → Ref.identify h = true.
Proof. by intros [_ ->]%ref_hash_secret_Return. Qed.

Lemma ref_verify_unknown (secret h : string) :
  Ref.identify h = false → Ref.verify secret h = Raise UnknownHashError.
Proof. intros H. unfold Ref.verify. by rewrite H. Qed.

#[global] Instance ref_crypt : CryptContext :=
  {| ctx_hash := Ref.hash_secret;
     ctx_verify := Ref.verify;
     ctx_identify := Ref.identify;
     ctx_hash_refuses := ref_hash_refuses;
     ctx_hash_accepts := ref_hash_accepts;
     ctx_verify_hash := ref_verify_hash;
     ctx_verify_truncates := ref_verify_truncates;
     ctx_verify_refuses := ref_verify_refuses;
     ctx_hash_salt := ref_hash_salt;
     ctx_identify_hash := ref_identify_hash;
     ctx_identify_idents := λ _, eq_refl;
     ctx_verify_unknown := ref_verify_unknown |}.

(** ** Base64 *)

Lemma chr_ord (c : Ascii.ascii) : chr (ord c) = c.
Proof. unfold chr, ord. by rewrite N2Z.id, ascii_N_embedding. Qed.

Lemma ord_range (c : Ascii.ascii) : 0 ≤ ord c < 256.
Proof.
  unfold ord. pose proof (N_ascii_bounded c) as H. lia.
Qed.

(** A three-byte induction on strings. *)
Lemma string_ind3 (P : string → Prop) :
  P EmptyString →
  (∀ a, P (String a EmptyString)) →
  (∀ a b, P (String a (String b EmptyString))) →
  (∀ a b c s, P s → P (String a (String b (String c s)))) →
  ∀ s, P s.
Proof.
  intros H0 H1 H2 H3.
  fix IH 1. intros [|a [|b [|c s]]]; [done|done|done|].
  apply H3, IH.
Qed.

(** The characters of the alphabet have their values, and none is the
    padding or the dot. *)
Lemma b64_char_spec (v : Z) :
  0 ≤ v < 64 →
  b64_value (b64_char v) = Some v ∧
  b64_char v ≠ "="%char ∧ b64_char v ≠ "."%char.
Proof.
  intros Hv.
  assert (∃ n : nat, v = Z.of_nat n ∧ (n < 64)%nat) as (n & -> & Hn)
    by (exists (Z.to_nat v); lia).
  do 64 (destruct n as [|n]; [by vm_compute|]). lia.
Qed.

(** The six-bit groups of three bytes. *)
Lemma sextets (x y z : Z) :
  0 ≤ x < 256 → 0 ≤ y < 256 → 0 ≤ z < 256 →
  0 ≤ x / 4 < 64 ∧ 0 ≤ x mod 4 * 16 + y / 16 < 64 ∧
  0 ≤ y mod 16 * 4 + z / 64 < 64 ∧ 0 ≤ z mod 64 < 64 ∧
  0 ≤ x mod 4 * 16 < 64 ∧ 0 ≤ y mod 16 * 4 < 64 ∧
  x / 4 * 4 + (x mod 4 * 16 + y / 16) / 16 = x ∧
  (x mod 4 * 16 + y / 16) mod 16 * 16 + (y mod 16 * 4 + z / 64) / 4 = y ∧
  (y mod 16 * 4 + z / 64) mod 4 * 64 + z mod 64 = z ∧
  x / 4 * 4 + (x mod 4 * 16) / 16 = x ∧
  (x mod 4 * 16) mod 16 = 0 ∧
  (x mod 4 * 16 + y / 16) mod 16 * 16 + (y mod 16 * 4) / 4 = y ∧
  (y mod 16 * 4) mod 4 = 0.
Proof. intros Hx Hy Hz. split_and!; Z.to_euclidean_division_equations; lia. Qed.

(** One step of the decoder on a character of the alphabet. *)
Lemma a2b_base64_char (v : Z) (s : string) (quad_pos pads : nat) (leftchar : Z) :
  0 ≤ v < 64 →
  a2b_base64 (String (b64_char v) s) quad_pos pads leftchar =
    match quad_pos with
    | 0%nat => a2b_base64 s 1%nat 0%nat v
    | 1%nat =>
        String (chr (leftchar * 4 + v / 16)) <$> a2b_base64 s 2%nat 0%nat (v mod 16)
    | 2%nat =>
        String (chr (leftchar * 16 + v / 4)) <$> a2b_base64 s 3%nat 0%nat (v mod 4)
    | _ => String (chr (leftchar * 64 + v)) <$> a2b_base64 s 0%nat 0%nat 0
    end.
Proof.
  intros (Hval & Hpad & _)%b64_char_spec. cbn [a2b_base64].
  by rewrite bool_decide_eq_false_2, Hval.
Qed.

Lemma quad_pos_after_3 (a b c : Ascii.ascii) (s : string) :
  quad_pos_after (String a (String b (String c s))) = quad_pos_after s.
Proof.
  unfold quad_pos_after. cbn [String.length].
  replace (S (S (S (String.length s)))) with (String.length s + 1 * 3)%nat by lia.
  by rewrite Nat.Div0.mod_add.
Qed.

Lemma append_nil_l (t : string) : "" +:+ t = t.
Proof. reflexivity. Qed.

Lemma append_cons (c : Ascii.ascii) (s t : string) :
  String c s +:+ t = String c (s +:+ t).
Proof. reflexivity. Qed.

(** Decoding an encoding, followed by anything: the bytes come back, and
    the decoder goes on with what follows. *)
Lemma a2b_base64_encode (s t : string) :
  a2b_base64 (base64url_encode s +:+ t) 0 0 0 =
    String.append s <$> a2b_base64 t (quad_pos_after s) 0 0.
Proof.
  induction s as [|a|a b|a b c s IH] using string_ind3.
  - change (quad_pos_after "") with 0%nat. cbn [base64url_encode].
    rewrite append_nil_l. by destruct (a2b_base64 t 0 0 0).
  - destruct (sextets (ord a) 0 0 (ord_range a))
      as (H0 & _ & _ & _ & H1 & _ & _ & _ & _ & Ha & Hl & _); [lia|lia|].
    cbn [base64url_encode]. rewrite !append_cons, append_nil_l.
    rewrite !a2b_base64_char by done.
    rewrite Ha, Hl, chr_ord.
    change (quad_pos_after (String a "")) with 2%nat.
    by destruct (a2b_base64 t 2 0 0).
  - destruct (sextets (ord a) (ord b) 0 (ord_range a) (ord_range b))
      as (H0 & H1 & _ & _ & _ & H2 & Ha & _ & _ & _ & _ & Hb & Hl); [lia|].
    cbn [base64url_encode]. rewrite !append_cons, append_nil_l.
    rewrite !a2b_base64_char by done.
    rewrite Ha, Hb, Hl, !chr_ord.
    change (quad_pos_after (String a (String b ""))) with 3%nat.
    by destruct (a2b_base64 t 3 0 0).
  - destruct (sextets (ord a) (ord b) (ord c) (ord_range a) (ord_range b) (ord_range c))
      as (H0 & H1 & H2 & H3 & _ & _ & Ha & Hb & Hc & _).
    cbn [base64url_encode]. rewrite !append_cons.
    rewrite !a2b_base64_char by done.
    rewrite Ha, Hb, Hc, !chr_ord, IH, quad_pos_after_3.
    by destruct (a2b_base64 t _ 0 0).
Qed.

Lemma append_nil_r (s : string) : s +:+ "" = s.
Proof. induction s as [|c s IH]; [done|]. by rewrite append_cons, IH. Qed.

Lemma append_assoc (s t u : string) : (s +:+ t) +:+ u = s +:+ (t +:+ u).
Proof. induction s as [|c s IH]; [done|]. by rewrite !append_cons, IH. Qed.

Lemma length_append (s t : string) :
  String.length (s +:+ t) = (String.length s + String.length t)%nat.
Proof.
  induction s as [|c s IH]; [done|].
  rewrite append_cons. cbn [String.length]. by rewrite IH.
Qed.

(** The length of an encoding, modulo four. *)
Lemma length_base64url_encode (s : string) :
  (String.length (base64url_encode s) mod 4)%nat = quad_pos_after s.
Proof.
  induction s as [|a|a b|a b c s IH] using string_ind3; [done|done|done|].
  rewrite quad_pos_after_3, <- IH.
  cbn [base64url_encode String.length].
  replace (S (S (S (S (String.length (base64url_encode s))))))
    with (String.length (base64url_encode s) + 1 * 4)%nat by lia.
  by rewrite Nat.Div0.mod_add.
Qed.

Lemma quad_pos_after_cases (s : string) :
  quad_pos_after s = 0%nat ∨ quad_pos_after s = 2%nat ∨ quad_pos_after s = 3%nat.
Proof.
  unfold quad_pos_after.
  destruct (String.length s mod 3)%nat as [|[|?]]; auto.
Qed.

(** [base64url_decode] undoes [base64url_encode]. *)
Lemma base64url_decode_encode (s : string) :
  base64url_decode (base64url_encode s) = Some s.
Proof.
  unfold base64url_decode. rewrite length_base64url_encode.
  destruct (quad_pos_after_cases s) as [H|[H|H]]; rewrite H; simpl.
  - rewrite <- (append_nil_r (base64url_encode s)), a2b_base64_encode, H. simpl.
    by rewrite append_nil_r.
  - rewrite a2b_base64_encode, H. simpl. by rewrite append_nil_r.
  - rewrite a2b_base64_encode, H. simpl. by rewrite append_nil_r.
Qed.

(** Padding appended to an encoding is ignored. *)
Lemma base64url_decode_encode_pad (s : string) :
  base64url_decode (base64url_encode s +:+ "=") = Some s.
Proof.
  unfold base64url_decode.
  rewrite length_append, <- Nat.Div0.add_mod_idemp_l, length_base64url_encode.
  destruct (quad_pos_after_cases s) as [H|[H|H]]; rewrite H; simpl;
    rewrite ?append_assoc, a2b_base64_encode, H; simpl; by rewrite append_nil_r.
Qed.

(** ** The compact serialisation *)

(** *** Splitting at dots *)

Lemma rsplit_dot_None (s : string) : rsplit_dot s = None ↔ dotless s = true.
Proof.
  induction s as [|c s IH]; [done|]. cbn [rsplit_dot dotless].
  destruct (rsplit_dot s) as [[a b]|].
  - split; [done|]. intros [_ H]%andb_true_iff. apply IH in H. done.
  - case_bool_decide; simpl; [done|]. split; [intros _; by apply IH|done].
Qed.

Lemma dotless_append (s t : string) :
  dotless (s +:+ t) = dotless s && dotless t.
Proof.
  induction s as [|c s IH]; [done|].
  rewrite append_cons. cbn [dotless]. rewrite IH. by rewrite andb_assoc.
Qed.

Lemma rsplit_dot_join (a b : string) :
  dotless b = true → rsplit_dot (a +:+ "." +:+ b) = Some (a, b).
Proof.
  intros Hb. induction a as [|c a IH].
  - rewrite append_nil_l, append_cons, append_nil_l. cbn [rsplit_dot].
    apply rsplit_dot_None in Hb. by rewrite Hb, bool_decide_eq_true_2.
  - rewrite append_cons. cbn [rsplit_dot]. by rewrite IH.
Qed.

Lemma split_dot_join (a b : string) :
  dotless a = true → split_dot (a +:+ "." +:+ b) = Some (a, b).
Proof.
  induction a as [|c a IH].
  - intros _. rewrite append_nil_l, append_cons, append_nil_l. cbn [split_dot].
    by rewrite bool_decide_eq_true_2.
  - cbn [dotless]. intros [Hc Ha]%andb_true_iff.
    rewrite append_cons. cbn [split_dot].
    apply negb_true_iff in Hc. by rewrite Hc, IH.
Qed.

(** What is appended after the last dot stays in the last part. *)
Lemma rsplit_dot_append (t u a b : string) :
  rsplit_dot t = Some (a, b) → dotless u = true →
  rsplit_dot (t +:+ u) = Some (a, b +:+ u).
Proof.
  intros Ht Hu. revert a b Ht. induction t as [|c t IH]; [done|].
  intros a b. rewrite append_cons. cbn [rsplit_dot].
  destruct (rsplit_dot t) as [[a' b']|] eqn:Hrec.
  - intros [= <- <-]. by rewrite (IH a' b' eq_refl).
  - case_bool_decide; [|done]. intros [= <- <-].
    assert (rsplit_dot (t +:+ u) = None) as ->; [|done].
    apply rsplit_dot_None. rewrite dotless_append, Hu.
    apply rsplit_dot_None in Hrec. by rewrite Hrec.
Qed.

Lemma dotless_base64url_encode (s : string) : dotless (base64url_encode s) = true.
Proof.
  assert (∀ v, 0 ≤ v < 64 → negb (bool_decide (b64_char v = "."%char)) = true) as Hchar.
  { intros v (_ & _ & Hdot)%b64_char_spec. by rewrite bool_decide_eq_false_2. }
  induction s as [|a|a b|a b c s IH] using string_ind3; [done| | |].
  - destruct (sextets (ord a) 0 0 (ord_range a))
      as (H0 & _ & _ & _ & H1 & _); [lia|lia|].
    cbn [base64url_encode dotless]. by rewrite !Hchar.
  - destruct (sextets (ord a) (ord b) 0 (ord_range a) (ord_range b))
      as (H0 & H1 & _ & _ & _ & H2 & _); [lia|].
    cbn [base64url_encode dotless]. by rewrite !Hchar.
  - destruct (sextets (ord a) (ord b) (ord c) (ord_range a) (ord_range b) (ord_range c))
      as (H0 & H1 & H2 & H3 & _).
    cbn [base64url_encode dotless]. by rewrite !Hchar, IH.
Qed.

(** *** python-jose meets its contract *)

Section JwsContract.

Context {prim : JwsPrimitives}.

(** The parts of a signed token. *)
Lemma load_sign (claims : gmap string pyval) (key algorithm token : string) :
  Jws.sign claims key algorithm = Return token →
  let signing_input :=
    base64url_encode (header_dumps algorithm) +:+ "."
    +:+ base64url_encode (claims_dumps claims) in
  algorithm ∈ hmac_algorithms ∧
  token = signing_input +:+ "."
          +:+ base64url_encode (hmac_sign algorithm key signing_input) ∧
  rsplit_dot token
    = Some (signing_input, base64url_encode (hmac_sign algorithm key signing_input)) ∧
  Jws.load token
    = Return (algorithm, claims_dumps claims, signing_input,
              hmac_sign algorithm key signing_input).
Proof.
  unfold Jws.sign. case_bool_decide as Halg; [|done]. intros [= <-].
  cbv zeta. split_and!; [done|done| |].
  - apply rsplit_dot_join, dotless_base64url_encode.
  - unfold Jws.load.
    rewrite rsplit_dot_join by apply dotless_base64url_encode.
    rewrite split_dot_join by apply dotless_base64url_encode.
    rewrite !base64url_decode_encode. cbn [mbind option_bind].
    by rewrite header_alg_dumps.
Qed.

Lemma verify_sign (claims : gmap string pyval) (key algorithm token : string) :
  Jws.sign claims key algorithm = Return token →
  Jws.verify token key [algorithm] = Return (claims_dumps claims).
Proof.
  intros (Halg & _ & _ & Hload)%load_sign. unfold Jws.verify. rewrite Hload.
  assert (algorithm ≠ "") as Hne.
  { intros ->. unfold hmac_algorithms in Halg.
    repeat (apply elem_of_cons in Halg as [Halg|Halg]; [done|]).
    by apply elem_of_nil in Halg. }
  rewrite (bool_decide_eq_false_2 _ Hne).
  rewrite (bool_decide_eq_true_2 (algorithm ∈ [algorithm])) by apply list_elem_of_here.
  by rewrite (bool_decide_eq_true_2 _ Halg), bool_decide_eq_true_2.
Qed.

Lemma intdates_exp_sub (expire : Z) (subject : string) :
  alter Jws.intdate_claim "exp"
    (alter Jws.intdate_claim "iat"
       (alter Jws.intdate_claim "nbf"
          ({[ "exp" := VDatetime expire; "sub" := VStr subject ]} : gmap string pyval)))
  = {[ "exp" := VInt (timegm expire); "sub" := VStr subject ]}.
Proof.
  apply map_eq. intros k. rewrite !lookup_alter.
  destruct (decide ("exp" = k)) as [<-|Hexp].
  - rewrite !decide_False by done. by rewrite !lookup_insert_eq.
  - rewrite !lookup_insert_ne by done.
    destruct (decide ("iat" = k)) as [<-|?]; [done|].
    by destruct (decide ("nbf" = k)) as [<-|?].
Qed.

Lemma jws_encode_supported (claims : gmap string pyval) (key algorithm : string) :
  bool_decide (algorithm ∈ hmac_algorithms) = true →
  ∃ token, Jws.encode claims key algorithm = Return token.
Proof. intros H. unfold Jws.encode, Jws.sign. rewrite H. eauto. Qed.

Lemma jws_decode_encode (expire : Z) (subject key algorithm : string) (now : Z)
    (token : string) :
  Jws.encode {[ "exp" := VDatetime expire; "sub" := VStr subject ]} key algorithm
    = Return token →
  Jws.decode token key [algorithm] now =
    if bool_decide (timegm expire < timegm now)
    then Raise ExpiredSignatureError
    else Return {[ "exp" := VInt (timegm expire); "sub" := VStr subject ]}.
Proof.
  unfold Jws.encode. rewrite intdates_exp_sub. intros Hsign.
  unfold Jws.decode. rewrite (verify_sign _ _ _ _ Hsign).
  apply claims_loads_dumps.
Qed.

(** python-jose, from its parts. *)
Definition jws_jose : Jose :=
  {| jwt_supported := λ algorithm, bool_decide (algorithm ∈ hmac_algorithms);
     jwt_encode := Jws.encode;
     jwt_decode := Jws.decode;
     jwt_encode_supported := jws_encode_supported;
     jwt_decode_encode := jws_decode_encode |}.

(** A token whose signature does not match is refused with a
    [JWTError]. *)
Lemma decode_signature_mismatch (token key algorithm : string) (now : Z) :
  algorithm ∈ hmac_algorithms →
  Jws.signature_matches token key algorithm = false →
  Jws.decode token key [algorithm] now = Raise JWTError.
Proof.
  intros Halg. unfold Jws.signature_matches, Jws.decode, Jws.verify, Jws.load.
  destruct (rsplit_dot token) as [[signing_input crypto_segment]|]; [|done].
  intros Hsig%bool_decide_eq_false_1.
  destruct (split_dot signing_input) as [[header_segment claims_segment]|]; [|done].
  destruct (base64url_decode header_segment ≫= header_alg) as [alg|]; [|done].
  destruct (base64url_decode claims_segment) as [payload|]; [|done].
  destruct (base64url_decode crypto_segment) as [signature|]; [|done].
  case_bool_decide; [done|].
  case_bool_decide as Hin; [|done]. cbn [negb].
  apply list_elem_of_singleton in Hin as ->.
  rewrite (bool_decide_eq_true_2 _ Halg). cbn [negb].
  case_bool_decide as Hmac; [|done]. by subst signature.
Qed.

(** A token that is decoded carries a signature that matches. *)
Lemma decode_signature_matches (token key algorithm : string) (now : Z)
    (claims : gmap string pyval) :
  Jws.decode token key [algorithm] now = Return claims →
  Jws.signature_matches token key algorithm = true.
Proof.
  unfold Jws.signature_matches, Jws.decode, Jws.verify, Jws.load.
  destruct (rsplit_dot token) as [[signing_input crypto_segment]|]; [|done].
  destruct (split_dot signing_input) as [[header_segment claims_segment]|]; [|done].
  destruct (base64url_decode header_segment ≫= header_alg) as [alg|]; [|done].
  destruct (base64url_decode claims_segment) as [payload|]; [|done].
  destruct (base64url_decode crypto_segment) as [signature|]; [|done].
  case_bool_decide; [done|].
  case_bool_decide as Hin; [|done]. cbn [negb].
  apply list_elem_of_singleton in Hin as ->.
  case_bool_decide; [|done]. cbn [negb].
  case_bool_decide as Hmac; [|done]. intros _. subst signature.
  by rewrite bool_decide_eq_true_2.
Qed.

(** Padding appended to a signed token is ignored: the padded token is
    loaded as the token is. *)
Lemma load_sign_pad (claims : gmap string pyval) (key algorithm token : string) :
  Jws.sign claims key algorithm = Return token →
  Jws.load (token +:+ "=") = Jws.load token.
Proof.
  intros (Halg & _ & Hsplit & Hload)%load_sign.
  cbv zeta in *. rewrite Hload. unfold Jws.load.
  rewrite (rsplit_dot_append _ "=" _ _ Hsplit eq_refl).
  rewrite split_dot_join by apply dotless_base64url_encode.
  rewrite !base64url_decode_encode, base64url_decode_encode_pad.
  cbn [mbind option_bind]. by rewrite header_alg_dumps.
Qed.

(** Two strings with the same text before the last dot, whose last
    segments decode to the same bytes, are loaded alike. *)
Lemma load_same_signature (signing_input segment segment' : string) :
  dotless segment = true → dotless segment' = true →
  base64url_decode segment' = base64url_decode segment →
  Jws.load (signing_input +:+ "." +:+ segment')
  = Jws.load (signing_input +:+ "." +:+ segment).
Proof.
  intros Hdot Hdot' Heq. unfold Jws.load.
  rewrite !rsplit_dot_join by done. by rewrite Heq.
Qed.

Lemma decode_sign_pad (claims : gmap string pyval) (key algorithm token : string)
    (algorithms : list string) (now : Z) :
  Jws.sign claims key algorithm = Return token →
  Jws.decode (token +:+ "=") key algorithms now = Jws.decode token key algorithms now.
Proof.
  intros Hsign. unfold Jws.decode, Jws.verify.
  by rewrite (load_sign_pad _ _ _ _ Hsign).
Qed.

End JwsContract.

Lemma ref_header_alg_dumps (algorithm : string) :
  algorithm ∈ hmac_algorithms → Ref.header_alg (Ref.field algorithm) = Some algorithm.
Proof. intros _. unfold Ref.header_alg. by rewrite take_field_field_end. Qed.

Lemma ref_claims_loads_dumps (exp0 : Z) (subject : string) (now : Z) :
  Ref.claims_loads
    (Ref.claims_dumps {[ "exp" := VInt exp0; "sub" := VStr subject ]}) now =
    if bool_decide (exp0 < timegm now)
    then Raise ExpiredSignatureError
    else Return {[ "exp" := VInt exp0; "sub" := VStr subject ]}.
Proof.
  unfold Ref.claims_loads, Ref.claims_dumps.
  rewrite lookup_insert_eq, lookup_insert_ne, lookup_singleton_eq by done.
  rewrite take_opt_field_opt_field.
  rewrite <- (append_nil_r (Ref.opt_field _)), take_opt_field_opt_field.
  cbn [mbind option_bind Ref.intdate Ref.claim_text fmap option_fmap option_map
       Ref.parse_exp].
  by rewrite parse_decimal_decimal.
Qed.

#[global] Instance ref_primitives : JwsPrimitives :=
  {| hmac_sign := Ref.hmac;
     header_dumps := Ref.field;
     header_alg := Ref.header_alg;
     claims_dumps := Ref.claims_dumps;
     claims_loads := Ref.claims_loads;
     header_alg_dumps := ref_header_alg_dumps;
     claims_loads_dumps := ref_claims_loads_dumps |}.

(** python-jose with the reference parts: the library of the scenarios. *)
#[global] Instance ref_jose : Jose := jws_jose.

(** ** Tokens *)

Section Tokens.

Context {jwt : Jose} {pwd_context : CryptContext}.
Variable settings : Settings.

(** [create_access_token], step by step: the expiry is computed, which
    overflows when it is no date, and the claims are signed. *)
Lemma create_access_token_encode (subject : py_subject) (expires_delta : option Z)
    (w : World) :
  create_access_token settings subject expires_delta w =
    if datetime_in_range (token_expiry settings (clock w) expires_delta)
    then (jwt_encode {[ "exp" := VDatetime (token_expiry settings (clock w) expires_delta);
                        "sub" := VStr (py_str subject) ]}
            (SECRET_KEY settings) (ALGORITHM settings), w)
    else (Raise OverflowError, w).
Proof.
  unfold create_access_token, bind, datetime_now, lift, token_expiry, datetime_add.
  destruct (timedelta_truthy expires_delta); by destruct (datetime_in_range _).
Qed.

Lemma create_access_token_returns (subject : py_subject) (expires_delta : option Z)
    (w : World) :
  jwt_supported (ALGORITHM settings) = true →
  datetime_in_range (token_expiry settings (clock w) expires_delta) = true →
  ∃ token, create_access_token settings subject expires_delta w = (Return token, w).
Proof.
  intros Halg Hrange. rewrite create_access_token_encode, Hrange.
  destruct (jwt_encode_supported
              {[ "exp" := VDatetime (token_expiry settings (clock w) expires_delta);
                 "sub" := VStr (py_str subject) ]}
              (SECRET_KEY settings) _ Halg) as [token ->].
  eauto.
Qed.

(** A token was issued: its expiry is a date, and the library signed. *)
Lemma create_access_token_Return (subject : py_subject) (expires_delta : option Z)
    (w w0 : World) (token : string) :
  create_access_token settings subject expires_delta w = (Return token, w0) →
  w0 = w ∧
  datetime_in_range (token_expiry settings (clock w) expires_delta) = true ∧
  jwt_encode {[ "exp" := VDatetime (token_expiry settings (clock w) expires_delta);
                "sub" := VStr (py_str subject) ]}
    (SECRET_KEY settings) (ALGORITHM settings) = Return token.
Proof.
  rewrite create_access_token_encode.
  destruct (datetime_in_range _); [|done]. by intros [= -> <-].
Qed.

(** [create_access_token] only reads the clock. *)
Lemma create_access_token_reads (subject : py_subject) (expires_delta : option Z)
    (w : World) :
  (create_access_token settings subject expires_delta w).2 = w.
Proof. rewrite create_access_token_encode. by destruct (datetime_in_range _). Qed.

(** Decoding an issued token, at any later reading of the clock. *)
Lemma decode_issued (subject : py_subject) (expires_delta : option Z)
    (w : World) (token : string) (now : Z) :
  create_access_token settings subject expires_delta w = (Return token, w) →
  jwt_decode token (SECRET_KEY settings) [ALGORITHM settings] now =
    if bool_decide (timegm (token_expiry settings (clock w) expires_delta) < timegm now)
    then Raise ExpiredSignatureError
    else Return {[ "exp" := VInt (timegm (token_expiry settings (clock w) expires_delta));
                   "sub" := VStr (py_str subject) ]}.
Proof.
  intros (_ & _ & Henc)%create_access_token_Return.
  by apply jwt_decode_encode.
Qed.

Lemma get_current_user_subject (token : string) (w : World)
    (payload : gmap string pyval) (name : string) :
  jwt_decode token (SECRET_KEY settings) [ALGORITHM settings] (clock w) = Return payload →
  payload !! "sub" = Some (VStr name) →
  get_current_user settings token w = resolve name w.
Proof.
  intros Hdec Hsub.
  unfold get_current_user, resolve, bind, try_except, jwt_decode_now.
  rewrite Hdec, Hsub. simpl.
  unfold get_user_by_username, select_first. simpl.
  by destruct (find _ _).
Qed.

Lemma get_current_user_no_subject (token : string) (w : World)
    (payload : gmap string pyval) :
  jwt_decode token (SECRET_KEY settings) [ALGORITHM settings] (clock w) = Return payload →
  payload !! "sub" = None ∨ payload !! "sub" = Some VNone →
  get_current_user settings token w = (Raise credentials_exception, w).
Proof.
  intros Hdec Hsub.
  unfold get_current_user, bind, try_except, jwt_decode_now.
  rewrite Hdec. by destruct Hsub as [-> | ->].
Qed.

Lemma get_current_user_jwt_error (token : string) (w : World) (e : exn) :
  jwt_decode token (SECRET_KEY settings) [ALGORITHM settings] (clock w) = Raise e →
  is_JWTError e = true →
  get_current_user settings token w = (Raise credentials_exception, w).
Proof.
  intros Hdec He.
  unfold get_current_user, bind, try_except, jwt_decode_now.
  rewrite Hdec. simpl. by rewrite He.
Qed.

(** An issued token, presented when the clock of [w'] is read. *)
Lemma get_current_user_issued (subject : py_subject) (expires_delta : option Z)
    (w w' : World) (token : string) :
  create_access_token settings subject expires_delta w = (Return token, w) →
  get_current_user settings token w' =
    if bool_decide (timegm (token_expiry settings (clock w) expires_delta)
                    < timegm (clock w'))
    then (Raise credentials_exception, w')
    else resolve (py_str subject) w'.
Proof.
  intros Hissue.
  pose proof (decode_issued _ _ _ _ (clock w') Hissue) as Hdec.
  case_bool_decide.
  - by eapply get_current_user_jwt_error.
  - eapply get_current_user_subject; [done|].
    by rewrite lookup_insert_ne, lookup_singleton_eq.
Qed.

(** The expiry of a token issued with a time-to-live other than zero. *)
Lemma token_expiry_ttl (ttl : Z) (now : Z) :
  ttl ≠ 0 → token_expiry settings now (Some ttl) = now + ttl.
Proof. intros Httl. unfold token_expiry. simpl. by destruct (Z.eqb_spec ttl 0). Qed.

(** The expiry of the token of a login: both branches of
    [create_access_token] give it, the zero lifetime included. *)
Lemma token_expiry_minutes (now : Z) :
  token_expiry settings now
    (Some (timedelta_minutes (ACCESS_TOKEN_EXPIRE_MINUTES settings)))
  = now + timedelta_minutes (ACCESS_TOKEN_EXPIRE_MINUTES settings).
Proof. unfold token_expiry. by destruct (timedelta_truthy _). Qed.

(** C1, as amended.  When the expiry [now + ttl] of a positive
    time-to-live is a date that [datetime] can hold, the token issued for
    [subject] and verified at once (or at any instant up to its expiry) is
    accepted: its decoded ["sub"] claim is [str(subject)], and
    [get_current_user] goes on to look that name up in the store.  When
    the expiry lies beyond the year 9999, no token is issued:
    [create_access_token] raises [OverflowError]. *)
Theorem issue_then_verify (subject : py_subject) (ttl : Z) (w w' : World) :
  jwt_supported (ALGORITHM settings) = true →
  0 < ttl →
  clock w' ≤ clock w + ttl →
  if datetime_in_range (clock w + ttl)
  then ∃ token payload,
         create_access_token settings subject (Some ttl) w = (Return token, w) ∧
         jwt_decode token (SECRET_KEY settings) [ALGORITHM settings] (clock w')
           = Return payload ∧
         payload !! "sub" = Some (VStr (py_str subject)) ∧
         get_current_user settings token w' = resolve (py_str subject) w'
  else create_access_token settings subject (Some ttl) w = (Raise OverflowError, w).
Proof.
  intros Halg Httl Hnow.
  pose proof (token_expiry_ttl ttl (clock w) ltac:(lia)) as Hexp.
  destruct (datetime_in_range (clock w + ttl)) eqn:Hrange.
  - destruct (create_access_token_returns subject (Some ttl) w Halg) as [token Hissue];
      [by rewrite Hexp|].
    assert (¬ timegm (token_expiry settings (clock w) (Some ttl)) < timegm (clock w'))
      as Hlive.
    { rewrite Hexp. unfold timegm. apply Z.le_ngt, Z.div_le_mono; lia. }
    exists token, {[ "exp" := VInt (timegm (token_expiry settings (clock w) (Some ttl)));
                     "sub" := VStr (py_str subject) ]}.
    split; [done|].
    pose proof (decode_issued _ _ _ _ (clock w') Hissue) as Hdec.
    pose proof (get_current_user_issued _ _ _ w' _ Hissue) as Hget.
    rewrite bool_decide_eq_false_2 in Hdec, Hget by done.
    split_and!; [done| |done].
    by rewrite lookup_insert_ne, lookup_singleton_eq.
  - by rewrite create_access_token_encode, Hexp, Hrange.
Qed.

End Tokens.

(** ** The password hasher *)

Section Hasher.

Context {pwd_context : CryptContext}.

Lemma get_password_hash_outcome (password : string) (w : World) :
  get_password_hash password w =
    match ctx_hash password (entropy w (drawn w)) with
    | Return h =>
        (Return h,
         {| db_users := db_users w; clock := clock w;
            entropy := entropy w; drawn := S (drawn w) |})
    | Raise e => (Raise e, w)
    end.
Proof. reflexivity. Qed.

(** A secret that passlib refuses is not hashed. *)
Lemma get_password_hash_refused (password : string) (w : World) (e : exn) :
  secret_error password = Some e →
  get_password_hash password w = (Raise e, w).
Proof.
  intros He. rewrite get_password_hash_outcome.
  by rewrite (ctx_hash_refuses _ _ _ He).
Qed.


(** C2, as amended.  A password that passlib accepts (at most 4096
    characters, no NUL byte) is hashed, and its hash verifies against it;
    two calls of [get_password_hash] on it, one after the other, give two
    strings that both verify, and that differ exactly when the two salts
    drawn differ.  Any other password is refused: [get_password_hash]
    raises and gives no hash. *)
Theorem hash_twice (p : string) (w : World) :
  match secret_error p with
  | None =>
      ∃ h1 h2 w1 w2,
        get_password_hash p w = (Return h1, w1) ∧
        get_password_hash p w1 = (Return h2, w2) ∧
        verify_password p h1 = Return true ∧
        verify_password p h2 = Return true ∧
        (h1 ≠ h2 ↔ entropy w (drawn w) ≠ entropy w (S (drawn w)))
  | Some e => get_password_hash p w = (Raise e, w)
  end.
Proof.
  destruct (secret_error p) as [e|] eqn:Hp; [by apply get_password_hash_refused|].
  destruct (ctx_hash_accepts p (entropy w (drawn w)) Hp) as [h1 H1].
  destruct (ctx_hash_accepts p (entropy w (S (drawn w))) Hp) as [h2 H2].
  exists h1, h2,
    {| db_users := db_users w; clock := clock w;
       entropy := entropy w; drawn := S (drawn w) |},
    {| db_users := db_users w; clock := clock w;
       entropy := entropy w; drawn := S (S (drawn w)) |}.
  rewrite !get_password_hash_outcome, H1. cbn [entropy drawn db_users clock].
  rewrite H2.
  split_and!; [done|done|by eapply ctx_verify_hash|by eapply ctx_verify_hash|].
  split.
  - intros Hne Hsalt. rewrite Hsalt in H1. congruence.
  - intros Hsalt ->. eauto using ctx_hash_salt.
Qed.




End Hasher.

(** ** The identity resolver *)

Section Resolver.

Context {jwt : Jose} {pwd_context : CryptContext}.
Variable settings : Settings.

(** C4, as amended.  A token that decodes to a claim set without ["sub"]
    is rejected with the 401.  An empty ["sub"] is not rejected as such:
    the resolver looks up the principal whose username is empty, and
    rejects only when the store has none. *)
Theorem get_current_user_sub_absent_or_empty (token : string) (w : World)
    (payload : gmap string pyval) :
  jwt_decode token (SECRET_KEY settings) [ALGORITHM settings] (clock w) = Return payload →
  (payload !! "sub" = None →
   get_current_user settings token w = (Raise credentials_exception, w)) ∧
  (payload !! "sub" = Some (VStr "") →
   get_current_user settings token w = resolve "" w).
Proof.
  intros Hdec. split; intros Hsub.
  - eapply get_current_user_no_subject; eauto.
  - by eapply get_current_user_subject.
Qed.

(** C5, as amended.  A token issued with a time-to-live other than zero is
    rejected with the 401 exactly when the whole seconds of the clock
    exceed the whole seconds of its expiry; until then, the second of the
    expiry included, it is resolved against the store. *)
Theorem get_current_user_expiry (subject : py_subject) (ttl : Z) (w w' : World)
    (token : string) :
  ttl ≠ 0 →
  create_access_token settings subject (Some ttl) w = (Return token, w) →
  get_current_user settings token w' =
    if bool_decide (timegm (clock w + ttl) < timegm (clock w'))
    then (Raise credentials_exception, w')
    else resolve (py_str subject) w'.
Proof.
  intros Httl Hissue.
  rewrite (get_current_user_issued settings _ _ w w' token Hissue).
  unfold token_expiry. simpl.
  by destruct (Z.eqb_spec ttl 0).
Qed.

(** C8, as amended.  An issued, unexpired token whose principal was
    deleted is rejected with the same 401 as a token the library refuses;
    when the principal is still in the store it is returned, whether or
    not its account is active. *)
Theorem get_current_user_orphaned (subject : py_subject) (d : option Z) (w w' : World)
    (token bad : string) (e : exn) :
  create_access_token settings subject d w = (Return token, w) →
  ¬ timegm (token_expiry settings (clock w) d) < timegm (clock w') →
  jwt_decode bad (SECRET_KEY settings) [ALGORITHM settings] (clock w') = Raise e →
  is_JWTError e = true →
  ((∀ u, u ∈ db_users w' → username u ≠ py_str subject) →
   get_current_user settings token w' = (Raise credentials_exception, w') ∧
   get_current_user settings token w' = get_current_user settings bad w') ∧
  (∀ u, find (λ u, bool_decide (username u = py_str subject)) (db_users w') = Some u →
   get_current_user settings token w' = (Return u, w')).
Proof.
  intros Hissue Hlive Hbad He.
  rewrite (get_current_user_issued settings _ _ w w' token Hissue).
  rewrite bool_decide_eq_false_2 by done.
  rewrite (get_current_user_jwt_error settings bad w' e Hbad He).
  unfold resolve. split.
  - intros Hgone.
    destruct (find _ _) as [u|] eqn:Hfind; [|done].
    apply find_some in Hfind as [Hin Hname].
    apply bool_decide_eq_true_1 in Hname.
    apply list_elem_of_In in Hin. by apply Hgone in Hin.
  - by intros u ->.
Qed.

End Resolver.

(** ** Tampering with a token *)

Section Tampering.

Context {prim : JwsPrimitives}.
Variable settings : Settings.

(** [get_current_user] reads a token through [jwt.decode] only. *)
Lemma get_current_user_decode (token1 token2 : string) (w : World) :
  jwt_decode (Jose := jws_jose) token1 (SECRET_KEY settings) [ALGORITHM settings] (clock w)
  = jwt_decode (Jose := jws_jose) token2 (SECRET_KEY settings) [ALGORITHM settings] (clock w) →
  get_current_user (jwt := jws_jose) settings token1 w = get_current_user (jwt := jws_jose) settings token2 w.
Proof.
  intros Hdec. unfold get_current_user, bind, try_except, jwt_decode_now.
  by rewrite Hdec.
Qed.

(** A token was issued: it was signed, with an HMAC algorithm. *)
Lemma create_access_token_signed (subject : py_subject) (d : option Z) (w : World)
    (token : string) :
  create_access_token (jwt := jws_jose) settings subject d w = (Return token, w) →
  ∃ claims, Jws.sign claims (SECRET_KEY settings) (ALGORITHM settings) = Return token.
Proof.
  intros (_ & _ & Henc)%create_access_token_Return.
  eexists. exact Henc.
Qed.

Lemma append_ne (s : string) : s +:+ "=" ≠ s.
Proof.
  intros H. apply (f_equal String.length) in H.
  rewrite length_append in H. simpl in H. lia.
Qed.

(** A string without a matching signature is rejected with the 401. *)
Lemma get_current_user_signature_mismatch (token' : string) (w' : World) :
  ALGORITHM settings ∈ hmac_algorithms →
  Jws.signature_matches token' (SECRET_KEY settings) (ALGORITHM settings) = false →
  get_current_user (jwt := jws_jose) settings token' w'
    = (Raise credentials_exception, w').
Proof.
  intros Halg Hsig.
  apply (get_current_user_jwt_error (jwt := jws_jose) settings token' w' JWTError);
    [|done].
  by apply decode_signature_mismatch.
Qed.

(** C6, as amended.  The token that [create_access_token] issues is a
    signing input, a dot, and a last segment that is, in base64, the HMAC
    of the signing input under the key of the settings.  A modified
    string is rejected with the 401 whenever its last segment does not
    decode to the HMAC of the text before its last dot: so is every
    change of the signing input that changes its HMAC, and every change
    of the last segment that changes the decoded signature.  A change of
    the last segment that its base64 decoding ignores is not noticed,
    and the string is answered exactly as the token is: thus the token
    with a ["="] appended, which is another string. *)
Theorem get_current_user_modified_token (subject : py_subject) (d : option Z)
    (w w' : World) (token token' : string) :
  create_access_token (jwt := jws_jose) settings subject d w = (Return token, w) →
  ∃ signing_input crypto_segment,
    token = signing_input +:+ "." +:+ crypto_segment ∧
    base64url_decode crypto_segment
      = Some (hmac_sign (ALGORITHM settings) (SECRET_KEY settings) signing_input) ∧
    (Jws.signature_matches token' (SECRET_KEY settings) (ALGORITHM settings) = false →
     get_current_user (jwt := jws_jose) settings token' w'
       = (Raise credentials_exception, w')) ∧
    (∀ segment',
       dotless segment' = true →
       get_current_user (jwt := jws_jose) settings (signing_input +:+ "." +:+ segment') w'
         = if bool_decide (base64url_decode segment' = base64url_decode crypto_segment)
           then get_current_user (jwt := jws_jose) settings token w'
           else (Raise credentials_exception, w')) ∧
    (∀ input',
       hmac_sign (ALGORITHM settings) (SECRET_KEY settings) input'
         ≠ hmac_sign (ALGORITHM settings) (SECRET_KEY settings) signing_input →
       get_current_user (jwt := jws_jose) settings (input' +:+ "." +:+ crypto_segment) w'
         = (Raise credentials_exception, w')) ∧
    token +:+ "=" ≠ token ∧
    get_current_user (jwt := jws_jose) settings (token +:+ "=") w'
      = get_current_user (jwt := jws_jose) settings token w'.
Proof.
  intros [claims Hsign]%create_access_token_signed.
  pose proof (load_sign _ _ _ _ Hsign) as (Halg & Htoken & _ & _). cbv zeta in Htoken.
  eexists _, _. split; [exact Htoken|].
  split_and!; [apply base64url_decode_encode| | | |apply append_ne|].
  - by apply get_current_user_signature_mismatch.
  - intros segment' Hdot. case_bool_decide as Hseg.
    + apply get_current_user_decode. rewrite Htoken.
      unfold jwt_decode, jws_jose, Jws.decode, Jws.verify.
      by rewrite (load_same_signature _ _ _ (dotless_base64url_encode _) Hdot Hseg).
    + apply get_current_user_signature_mismatch; [done|].
      unfold Jws.signature_matches. rewrite rsplit_dot_join by done.
      apply bool_decide_eq_false_2.
      rewrite base64url_decode_encode in Hseg. congruence.
  - intros input' Hmac.
    apply get_current_user_signature_mismatch; [done|].
    unfold Jws.signature_matches.
    rewrite rsplit_dot_join by apply dotless_base64url_encode.
    rewrite base64url_decode_encode.
    apply bool_decide_eq_false_2. congruence.
  - apply get_current_user_decode. by eapply decode_sign_pad.
Qed.

End Tampering.

(** ** Registration and login *)

Section Store.

Context {jwt : Jose} {pwd_context : CryptContext}.
Variable settings : Settings.

Lemma find_none_iff {A} (f : A → bool) (l : list A) :
  find f l = None ↔ ∀ x, x ∈ l → f x = false.
Proof.
  induction l as [|a l IH]; simpl.
  - split; [intros _ x Hx; by apply elem_of_nil in Hx|done].
  - destruct (f a) eqn:Hfa.
    + split; [done|]. intros H. specialize (H a (list_elem_of_here _ _)). congruence.
    + rewrite IH. split.
      * intros H x [->|Hx]%elem_of_cons; auto.
      * intros H x Hx. apply H. by apply elem_of_cons; right.
Qed.

Lemma unique_conflict_free (rows : list User) (u : NewUser) :
  (∀ v, v ∈ rows → username v ≠ nu_username u ∧ email v ≠ nu_email u) →
  unique_conflict rows u = false.
Proof.
  intros Hfree. unfold unique_conflict.
  apply not_true_is_false. intros [v [Hin Hv]]%existsb_exists.
  apply list_elem_of_In, Hfree in Hin as [Hn He].
  apply orb_prop in Hv as [Hv|Hv]; by apply bool_decide_eq_true_1 in Hv.
Qed.

(** What [hash] raises is its refusal of the secret. *)
Lemma ctx_hash_Raise (secret salt : string) (e : exn) :
  ctx_hash secret salt = Raise e → secret_error secret = Some e.
Proof.
  intros Hhash. destruct (secret_error secret) as [e'|] eqn:He.
  - rewrite (ctx_hash_refuses _ _ _ He) in Hhash. congruence.
  - destruct (ctx_hash_accepts secret salt He) as [h Hh]. congruence.
Qed.

Lemma ctx_hash_Return (secret salt h : string) :
  ctx_hash secret salt = Return h → secret_error secret = None.
Proof.
  intros Hhash. destruct (secret_error secret) as [e|] eqn:He; [|done].
  rewrite (ctx_hash_refuses _ _ _ He) in Hhash. done.
Qed.

(** The outcome of [create_user]: the password is hashed, or refused; then
    the row is committed, or the unique constraints fail. *)
Lemma create_user_outcome (user_create : UserCreate) (w : World) :
  create_user user_create w =
    match ctx_hash (uc_password user_create) (entropy w (drawn w)) with
    | Raise e => (Raise e, w)
    | Return hashed =>
        let db_user := {| nu_username := uc_username user_create;
                          nu_email := uc_email user_create;
                          nu_password_hash := hashed;
                          nu_is_active := true |} in
        let w1 := {| db_users := db_users w; clock := clock w;
                     entropy := entropy w; drawn := S (drawn w) |} in
        let row := {| id := next_id (db_users w);
                      username := uc_username user_create;
                      email := uc_email user_create;
                      password_hash := hashed;
                      is_active := true;
                      created_at := clock w |} in
        if unique_conflict (db_users w) db_user
        then (Raise IntegrityError, w1)
        else (Return row,
              {| db_users := db_users w ++ [row]; clock := clock w;
                 entropy := entropy w; drawn := S (drawn w) |})
    end.
Proof.
  unfold create_user, bind, get_password_hash, pwd_context_hash,
    session_add_commit_refresh.
  destruct (ctx_hash _ _) as [hashed|e]; [|done]. simpl.
  by destruct (unique_conflict _ _).
Qed.

(** The outcome of [register]: the two lookups, then [create_user]. *)
Lemma register_outcome (user_in : UserCreate) (w : World) :
  register user_in w =
    if truthy (find (λ u, bool_decide (username u = uc_username user_in)) (db_users w))
       || truthy (find (λ u, bool_decide (email u = uc_email user_in)) (db_users w))
    then (Raise (HTTPException HTTP_400_BAD_REQUEST "User already exists." ∅), w)
    else match create_user user_in w with
         | (Return new_user, w') => (Return (UserRead_from new_user), w')
         | (Raise e, w') => (Raise e, w')
         end.
Proof.
  unfold register, bind, get_user_by_username, get_user_by_email, select_first,
    ret, raise.
  destruct (find _ _); cbn [truthy orb]; [reflexivity|].
  destruct (find _ _); cbn [truthy orb]; [reflexivity|].
  by destruct (create_user user_in w) as [[?|?] ?].
Qed.

(** [create_user] has answered: the password was hashed with the next
    salt, and the row is the last of the table. *)
Lemma create_user_Return (user_create : UserCreate) (w w1 : World) (user : User) :
  create_user user_create w = (Return user, w1) →
  ctx_hash (uc_password user_create) (entropy w (drawn w))
    = Return (password_hash user) ∧
  username user = uc_username user_create ∧
  email user = uc_email user_create ∧
  is_active user = true ∧
  db_users w1 = db_users w ++ [user] ∧
  clock w1 = clock w.
Proof.
  rewrite create_user_outcome.
  destruct (ctx_hash _ _) as [hashed|e]; [|done]. cbv zeta.
  destruct (unique_conflict _ _); [done|]. by intros [= <- <-].
Qed.

(** [register] has answered: neither lookup found a row, and
    [create_user] answered. *)
Lemma register_Return (user_in : UserCreate) (w w1 : World) (response : UserRead) :
  register user_in w = (Return response, w1) →
  (∀ u, u ∈ db_users w →
        username u ≠ uc_username user_in ∧ email u ≠ uc_email user_in) ∧
  ∃ user, create_user user_in w = (Return user, w1) ∧ response = UserRead_from user.
Proof.
  rewrite register_outcome.
  destruct (find _ _) as [?|] eqn:Hname; [done|].
  destruct (find _ _) as [?|] eqn:Hmail in |- *; [done|].
  cbn [truthy orb].
  destruct (create_user user_in w) as [[user|e] w'] eqn:Hcreate; [|done].
  intros [= <- <-]. split; [|eauto].
  rewrite find_none_iff in Hname, Hmail. intros u Hu.
  apply Hname in Hu as Hn. apply Hmail in Hu as Hm.
  by apply bool_decide_eq_false_1 in Hn, Hm.
Qed.

(** C10. The row [create_user] persists has [is_active = True], whatever
    [is_active] the request carried; a refused password or a failed commit
    leaves the table as it was.  So does every registration that
    succeeds. *)
Theorem create_user_is_active (user_create : UserCreate) (w : World) :
  match create_user user_create w with
  | (Return user, w') =>
      is_active user = true ∧
      username user = uc_username user_create ∧
      db_users w' = db_users w ++ [user]
  | (Raise e, w') =>
      (e = IntegrityError ∨ secret_error (uc_password user_create) = Some e) ∧
      db_users w' = db_users w
  end ∧
  match register user_create w with
  | (Return response, w') =>
      ur_is_active response = true ∧
      ∃ user, response = UserRead_from user ∧ is_active user = true ∧
              db_users w' = db_users w ++ [user]
  | (Raise e, w') => db_users w' = db_users w
  end.
Proof.
  split.
  - rewrite create_user_outcome.
    destruct (ctx_hash _ _) as [hashed|e] eqn:Hhash.
    + cbv zeta. destruct (unique_conflict _ _); [by split; [left|]|done].
    + split; [right; by eapply ctx_hash_Raise|done].
  - rewrite register_outcome.
    destruct (_ || _); [done|].
    rewrite create_user_outcome.
    destruct (ctx_hash _ _) as [hashed|e]; [|done]. cbv zeta.
    destruct (unique_conflict _ _); [done|]. eauto.
Qed.

Lemma UserRead_dump_keys (r : UserRead) :
  dom (UserRead_dump r)
    = ({[ "email"; "username"; "is_active"; "id"; "created_at" ]} : gset string).
Proof.
  unfold UserRead_dump. rewrite !dom_insert_L, dom_singleton_L. set_solver.
Qed.

(** A lookup finds nothing when no row has the value. *)
Lemma find_column_None (column : User → string) (value : string) (rows : list User) :
  (∀ u, u ∈ rows → column u ≠ value) →
  find (λ u : User, bool_decide (column u = value)) rows = None.
Proof.
  intros Hc. apply find_none_iff. intros u Hu.
  by apply bool_decide_eq_false_2, Hc.
Qed.

(** A registration with a free username, a free email and a password that
    the hasher accepts succeeds, and adds the row. *)
Lemma register_free (user_in : UserCreate) (w : World) :
  (∀ u, u ∈ db_users w →
        username u ≠ uc_username user_in ∧ email u ≠ uc_email user_in) →
  secret_error (uc_password user_in) = None →
  ∃ user w1,
    create_user user_in w = (Return user, w1) ∧
    register user_in w = (Return (UserRead_from user), w1) ∧
    db_users w1 = db_users w ++ [user] ∧
    drawn w1 = S (drawn w) ∧ clock w1 = clock w ∧ entropy w1 = entropy w ∧
    username user = uc_username user_in ∧
    email user = uc_email user_in ∧
    is_active user = true ∧
    ctx_hash (uc_password user_in) (entropy w (drawn w)) = Return (password_hash user).
Proof.
  intros Hfree Hok.
  destruct (ctx_hash_accepts (uc_password user_in) (entropy w (drawn w)) Hok)
    as [hashed Hhash].
  rewrite register_outcome, create_user_outcome, Hhash. cbv zeta.
  rewrite !find_column_None by (intros u Hu; destruct (Hfree u Hu); assumption).
  cbn [truthy orb].
  rewrite unique_conflict_free by apply Hfree.
  eexists _, _. split_and!; reflexivity.
Qed.

(** C7, as amended.  When neither the username nor the email of the first
    request is taken and the hasher accepts its password, it is
    registered: one row is added, and the response has the public fields
    only.  A second request with the same username or the same email then
    fails with the 400 and adds nothing. *)
Theorem register_twice (first second : UserCreate) (w : World) :
  (∀ u, u ∈ db_users w →
        username u ≠ uc_username first ∧ email u ≠ uc_email first) →
  secret_error (uc_password first) = None →
  uc_username second = uc_username first ∨ uc_email second = uc_email first →
  ∃ user w1,
    register first w = (Return (UserRead_from user), w1) ∧
    db_users w1 = db_users w ++ [user] ∧
    dom (UserRead_dump (UserRead_from user))
      = ({[ "email"; "username"; "is_active"; "id"; "created_at" ]} : gset string) ∧
    register second w1
      = (Raise (HTTPException HTTP_400_BAD_REQUEST "User already exists." ∅), w1).
Proof.
  intros Hfree Hok Hsame.
  destruct (register_free first w Hfree Hok)
    as (row & w1 & _ & Hfirst & Hrows & _ & _ & _ & Hname & Hmail & _).
  exists row, w1.
  split_and!; [done|done| |].
  - apply UserRead_dump_keys.
  - assert (row ∈ db_users w1) as Hrow
      by (rewrite Hrows; apply elem_of_app; right; apply list_elem_of_here).
    rewrite register_outcome.
    destruct (find _ (db_users w1)) as [v|] eqn:Hn; [done|].
    destruct (find _ (db_users w1)) as [v|] eqn:Hm in |- *; [done|].
    exfalso. rewrite find_none_iff in Hn, Hm.
    apply Hn in Hrow as Hn'. apply Hm in Hrow as Hm'.
    apply bool_decide_eq_false_1 in Hn', Hm'.
    destruct Hsame; congruence.
Qed.

(** The outcome of [login_for_access_token], case by case. *)
Lemma login_outcome (name password : string) (w : World) :
  login_for_access_token settings name password w =
    match find (λ u, bool_decide (username u = name)) (db_users w) with
    | None => (Raise login_unauthorized, w)
    | Some user =>
        match verify_password password (password_hash user) with
        | Raise e => (Raise e, w)
        | Return false => (Raise login_unauthorized, w)
        | Return true =>
            if is_active user
            then
              match create_access_token settings (SStr (username user))
                      (Some (timedelta_minutes (ACCESS_TOKEN_EXPIRE_MINUTES settings))) w
              with
              | (Return token, w') =>
                  (Return {| access_token := token; token_type := "bearer" |}, w')
              | (Raise e, w') => (Raise e, w')
              end
            else (Raise (HTTPException 400 "Inactive user" ∅), w)
        end
    end.
Proof.
  unfold login_for_access_token, authenticate_user, bind, get_user_by_username,
    select_first, lift, ret, raise.
  destruct (find _ _) as [user|]; [|reflexivity].
  destruct (verify_password _ _) as [[|]|e]; cbn [negb]; try reflexivity.
  destruct (is_active user); cbn [negb]; [|reflexivity].
  by destruct (create_access_token _ _ _ w) as [[?|?] ?].
Qed.


End Store.

(** ** The scenarios, evaluated on the reference libraries *)

Import Scenario.

(** Counterexample to C1: a time-to-live of three million days is
    positive, and the expiry lies beyond the year 9999; no token is
    issued. *)
Lemma issue_overflows :
  0 < timedelta_days 3000000 ∧
  create_access_token Ref.settings (SStr "alice") (Some (timedelta_days 3000000))
    Ref.world0 = (Raise OverflowError, Ref.world0).
Proof. split; reflexivity. Qed.

Lemma issue_then_verify_witness :
  ∃ token payload,
    create_access_token Ref.settings (SStr "alice") (Some (timedelta_minutes 30)) Ref.world0
      = (Return token, Ref.world0) ∧
    jwt_decode token (SECRET_KEY Ref.settings) [ALGORITHM Ref.settings] (clock Ref.world0)
      = Return payload ∧
    payload !! "sub" = Some (VStr "alice") ∧
    get_current_user Ref.settings token Ref.world0 = resolve "alice" Ref.world0.
Proof.
  apply (issue_then_verify Ref.settings (SStr "alice") (timedelta_minutes 30)
           Ref.world0 Ref.world0).
  - reflexivity.
  - reflexivity.
  - vm_compute. discriminate.
Defined.

Lemma hash_twice_witness :
  ∃ h1 h2 w1 w2,
    get_password_hash "secret1" Ref.world0 = (Return h1, w1) ∧
    get_password_hash "secret1" w1 = (Return h2, w2) ∧
    verify_password "secret1" h1 = Return true ∧
    verify_password "secret1" h2 = Return true ∧
    (h1 ≠ h2 ↔
     entropy Ref.world0 (drawn Ref.world0) ≠ entropy Ref.world0 (S (drawn Ref.world0))).
Proof. exact (hash_twice "secret1" Ref.world0). Defined.

(** The two hashes of the reference library, which differ. *)
Example hash_twice_secret1 :
  get_password_hash "secret1" Ref.world0 = (Return "$2b$0.secret1", world_drawn) ∧
  (get_password_hash "secret1" world_drawn).1 = Return "$2b$1.secret1".
Proof. split; reflexivity. Qed.

(** Where the salt drawn comes again, so does the hash. *)
Example hash_twice_repeated_salt :
  ∃ w1, get_password_hash "secret1" world_repeating = (Return "$2b$0.secret1", w1) ∧
        (get_password_hash "secret1" w1).1 = Return "$2b$0.secret1".
Proof. eexists. split; reflexivity. Qed.

(** Counterexample to C2: a password with a NUL byte has no hash;
    [get_password_hash] raises passlib's [PasswordValueError]. *)
Lemma nul_password_not_hashed :
  get_password_hash nul_password Ref.world0 = (Raise PasswordValueError, Ref.world0).
Proof. reflexivity. Qed.


(** A plaintext that is not the password verifies against its hash: the
    two agree on their first 72 bytes. *)
Example verify_password_long_prefix :
  long_b ≠ long_c ∧
  get_password_hash long_c Ref.world0 = (Return (Ref.hash long_c "0"), world_drawn) ∧
  verify_password long_b (Ref.hash long_c "0") = Return true.
Proof. split_and!; [discriminate|reflexivity|reflexivity]. Qed.


Example register_alice :
  register alice_in Ref.world0 = (Return (UserRead_from alice), world_alice).
Proof. reflexivity. Qed.

Example register_clive :
  register clive_in world_alice = (Return (UserRead_from clive), world_two).
Proof. reflexivity. Qed.

Example register_nameless :
  register nameless_in Ref.world0 = (Return (UserRead_from nameless), world_nameless).
Proof. reflexivity. Qed.

Example login_wrong_password :
  login_for_access_token Ref.settings "alice" "wrong" world_alice
    = (Raise login_unauthorized, world_alice).
Proof. reflexivity. Qed.

Example login_alice :
  login_for_access_token Ref.settings "alice" "secret1" world_alice
    = (Return {| access_token := alice_token;
                 token_type := "bearer" |}, world_alice).
Proof. reflexivity. Qed.

Example resolve_alice :
  get_current_user Ref.settings alice_token world_alice
    = (Return alice, world_alice).
Proof. reflexivity. Qed.

Example garbage_token :
  jwt_decode "garbage" (SECRET_KEY Ref.settings) [ALGORITHM Ref.settings]
    (clock world_deleted) = Raise JWTError.
Proof. reflexivity. Qed.

(** A time-to-live of zero counts as none given: the token gets the
    default lifetime. *)
Example zero_ttl_is_default (subject : py_subject) (w : World) (settings : Settings) :
  create_access_token settings subject (Some 0) w
    = create_access_token settings subject None w.
Proof. reflexivity. Qed.

Lemma get_current_user_sub_absent_or_empty_witness :
  (({[ "exp" := VInt 1700001800 ]} : gmap string pyval) !! "sub" = None →
   get_current_user Ref.settings no_sub_token world_alice
     = (Raise credentials_exception, world_alice)) ∧
  (({[ "exp" := VInt 1700001800 ]} : gmap string pyval) !! "sub" = Some (VStr "") →
   get_current_user Ref.settings no_sub_token world_alice
     = resolve "" world_alice).
Proof.
  apply (get_current_user_sub_absent_or_empty Ref.settings
           no_sub_token world_alice
           {[ "exp" := VInt 1700001800 ]}).
  reflexivity.
Defined.

(** Counterexample to C4: a principal registers with the empty username
    ([register_nameless]); a token signed for the empty subject decodes to
    ["sub"] = [""] and resolves to that principal. *)
Lemma empty_subject_accepted :
  ∃ token payload,
    create_access_token Ref.settings (SStr "") (Some (timedelta_minutes 30)) world_nameless
      = (Return token, world_nameless) ∧
    jwt_decode token (SECRET_KEY Ref.settings) [ALGORITHM Ref.settings]
      (clock world_nameless) = Return payload ∧
    payload !! "sub" = Some (VStr "") ∧
    get_current_user Ref.settings token world_nameless
      = (Return nameless, world_nameless).
Proof.
  exists nameless_token,
    {[ "exp" := VInt 1700001800; "sub" := VStr "" ]}.
  split_and!; reflexivity.
Qed.

Example resolve_alice_later :
  get_current_user Ref.settings alice_token world_later
    = (Raise credentials_exception, world_later).
Proof. reflexivity. Qed.

Lemma get_current_user_expiry_witness :
  get_current_user Ref.settings alice_token world_later =
    if bool_decide (timegm (clock world_alice + timedelta_minutes 30)
                    < timegm (clock world_later))
    then (Raise credentials_exception, world_later)
    else resolve "alice" world_later.
Proof.
  apply (get_current_user_expiry Ref.settings (SStr "alice") (timedelta_minutes 30)
           world_alice world_later).
  - discriminate.
  - reflexivity.
Defined.

(** Counterexample to C5: a token issued with an expiry half a second in the
    past is accepted by a call made after that expiry, in the same whole
    second. *)
Lemma expired_token_accepted :
  ∃ token,
    create_access_token Ref.settings (SStr "alice") (Some (-500000)) world_alice
      = (Return token, world_alice) ∧
    clock world_alice + -500000 < clock world_alice ∧
    get_current_user Ref.settings token world_alice = (Return alice, world_alice).
Proof.
  exists alice_token_early.
  split_and!; reflexivity.
Qed.

Lemma get_current_user_modified_token_witness :
  ∃ signing_input crypto_segment,
    alice_token = signing_input +:+ "." +:+ crypto_segment ∧
    base64url_decode crypto_segment
      = Some (hmac_sign (ALGORITHM Ref.settings) (SECRET_KEY Ref.settings) signing_input) ∧
    (Jws.signature_matches alice_token_forged (SECRET_KEY Ref.settings)
       (ALGORITHM Ref.settings) = false →
     get_current_user Ref.settings alice_token_forged world_two
       = (Raise credentials_exception, world_two)) ∧
    (∀ segment',
       dotless segment' = true →
       get_current_user Ref.settings
         (signing_input +:+ "." +:+ segment') world_two
         = if bool_decide (base64url_decode segment' = base64url_decode crypto_segment)
           then get_current_user Ref.settings alice_token world_two
           else (Raise credentials_exception, world_two)) ∧
    (∀ input',
       hmac_sign (ALGORITHM Ref.settings) (SECRET_KEY Ref.settings) input'
         ≠ hmac_sign (ALGORITHM Ref.settings) (SECRET_KEY Ref.settings) signing_input →
       get_current_user Ref.settings
         (input' +:+ "." +:+ crypto_segment) world_two
         = (Raise credentials_exception, world_two)) ∧
    alice_token +:+ "=" ≠ alice_token ∧
    get_current_user Ref.settings (alice_token +:+ "=") world_two
      = get_current_user Ref.settings alice_token world_two.
Proof.
  apply (get_current_user_modified_token Ref.settings (SStr "alice")
           (Some (timedelta_minutes 30)) world_two world_two alice_token alice_token_forged).
  vm_compute. reflexivity.
Defined.

(** Counterexample to C6: the last character of the token of [alice] is
    changed, from 4 to 5, which changes the string and not the signature
    it decodes to; the changed token resolves to [alice], and so does the
    token with a padding character appended. *)
Lemma tampered_token_accepted :
  create_access_token Ref.settings (SStr "alice")
    (Some (timedelta_minutes 30)) world_two = (Return alice_token, world_two) ∧
  alice_token_low_bits ≠ alice_token ∧
  String.length alice_token_low_bits = String.length alice_token ∧
  get_current_user Ref.settings alice_token_low_bits world_two
    = (Return alice, world_two) ∧
  get_current_user Ref.settings (alice_token +:+ "=") world_two
    = (Return alice, world_two).
Proof. split_and!; [by vm_compute|discriminate|reflexivity|by vm_compute|by vm_compute]. Qed.

(** The claims of [clive] under the signature of [alice] are rejected. *)
Example forged_token_rejected :
  Jws.signature_matches alice_token_forged (SECRET_KEY Ref.settings) (ALGORITHM Ref.settings)
    = false ∧
  get_current_user Ref.settings alice_token_forged world_two
    = (Raise credentials_exception, world_two).
Proof. split; by vm_compute. Qed.

Lemma register_twice_witness :
  ∃ user w1,
    register alice_in Ref.world0 = (Return (UserRead_from user), w1) ∧
    db_users w1 = db_users Ref.world0 ++ [user] ∧
    dom (UserRead_dump (UserRead_from user))
      = ({[ "email"; "username"; "is_active"; "id"; "created_at" ]} : gset string) ∧
    register alice_in w1
      = (Raise (HTTPException HTTP_400_BAD_REQUEST "User already exists." ∅), w1).
Proof.
  apply (register_twice alice_in alice_in Ref.world0).
  - intros u Hu. by apply elem_of_nil in Hu.
  - reflexivity.
  - by left.
Defined.

(** Counterexample to C7: the first registration of the username [alice]
    carries a password with a NUL byte and fails, with passlib's
    [PasswordValueError] and not with the duplicate conflict; nothing is
    stored, and the second registration of the same username succeeds. *)
Lemma refused_password_frees_the_name :
  uc_username alice_in = uc_username alice_nul_in ∧
  register alice_nul_in Ref.world0 = (Raise PasswordValueError, Ref.world0) ∧
  register alice_in Ref.world0 = (Return (UserRead_from alice), world_alice).
Proof. split_and!; reflexivity. Qed.

Lemma get_current_user_orphaned_witness :
  ((∀ u, u ∈ db_users world_deleted → username u ≠ "alice") →
   get_current_user Ref.settings alice_token world_deleted
     = (Raise credentials_exception, world_deleted) ∧
   get_current_user Ref.settings alice_token world_deleted
     = get_current_user Ref.settings "garbage" world_deleted) ∧
  (∀ u, find (λ u, bool_decide (username u = "alice")) (db_users world_deleted) = Some u →
   get_current_user Ref.settings alice_token world_deleted
     = (Return u, world_deleted)).
Proof.
  apply (get_current_user_orphaned Ref.settings (SStr "alice")
           (Some (timedelta_minutes 30)) world_alice world_deleted
           alice_token "garbage" JWTError).
  - reflexivity.
  - vm_compute. discriminate.
  - reflexivity.
  - reflexivity.
Defined.

(** Counterexample to C8: a minute after the login the account is
    deactivated, and the token still resolves to the principal. *)
Lemma deactivated_principal_resolved :
  ∃ token,
    create_access_token Ref.settings (SStr "alice") (Some (timedelta_minutes 30)) world_alice
      = (Return token, world_alice) ∧
    is_active alice_deactivated = false ∧
    get_current_user Ref.settings token world_deactivated
      = (Return alice_deactivated, world_deactivated).
Proof.
  exists alice_token.
  split_and!; reflexivity.
Qed.



(** * Further properties of the handlers *)

Section Composition.

Context {jwt : Jose} {pwd_context : CryptContext}.
Variable settings : Settings.

(** The first row found in a table that grew by one row. *)
Lemma find_snoc {A} (f : A → bool) (l : list A) (x : A) :
  find f (l ++ [x]) =
    match find f l with
    | Some y => Some y
    | None => if f x then Some x else None
    end.
Proof.
  induction l as [|a l IH]; simpl; [done|].
  by destruct (f a).
Qed.

(** A lookup that answers finds a row of the table with the value asked
    for; one that answers [None] means no row has it. *)
Lemma select_first_spec (column : User → string) (value : string) (w : World) :
  match select_first column value w with
  | (Return (Some u), w') => w' = w ∧ u ∈ db_users w ∧ column u = value
  | (Return None, w') => w' = w ∧ ∀ u, u ∈ db_users w → column u ≠ value
  | (Raise _, _) => False
  end.
Proof.
  unfold select_first.
  destruct (find _ _) as [u|] eqn:Hfind.
  - apply find_some in Hfind as [Hin Hcol].
    apply bool_decide_eq_true_1 in Hcol. by rewrite <- list_elem_of_In in Hin.
  - split; [done|]. rewrite find_none_iff in Hfind.
    intros u Hu. apply Hfind in Hu. by apply bool_decide_eq_false_1 in Hu.
Qed.

(** The unique constraints fail exactly when one of the two lookups of
    [register] finds a row. *)
Lemma unique_conflict_lookups (rows : list User) (u : NewUser) :
  unique_conflict rows u =
    truthy (find (λ v, bool_decide (username v = nu_username u)) rows)
    || truthy (find (λ v, bool_decide (email v = nu_email u)) rows).
Proof.
  unfold unique_conflict. induction rows as [|v rows IH]; simpl; [done|].
  rewrite IH.
  destruct (bool_decide (username v = _)), (bool_decide (email v = _));
    simpl; try done; try (by rewrite orb_true_r); by destruct (find _ rows).
Qed.

(** X5. In a sequential run [register] answers with the created
    principal, with the 400 ["User already exists."], or with the
    hasher's refusal of the password, and with nothing else: its own two
    lookups make the unique constraints of the table unreachable.  A
    request that is not accepted changes nothing, and an accepted one adds
    one row and keeps usernames and emails without duplicates. *)
Theorem register_keeps_unique (user_in : UserCreate) (w : World) :
  NoDup (username <$> db_users w) →
  NoDup (email <$> db_users w) →
  match register user_in w with
  | (Return response, w') =>
      ur_username response = uc_username user_in ∧
      ur_email response = uc_email user_in ∧
      length (db_users w') = S (length (db_users w)) ∧
      NoDup (username <$> db_users w') ∧
      NoDup (email <$> db_users w')
  | (Raise e, w') =>
      w' = w ∧
      (e = HTTPException HTTP_400_BAD_REQUEST "User already exists." ∅ ∨
       secret_error (uc_password user_in) = Some e)
  end.
Proof.
  intros Hnames Hmails.
  rewrite register_outcome, create_user_outcome.
  destruct (find _ _) as [?|] eqn:Hname; [by split; [|left]|].
  destruct (find _ _) as [?|] eqn:Hmail in |- *; [by split; [|left]|].
  cbn [truthy orb].
  destruct (ctx_hash _ _) as [hashed|e] eqn:Hhash;
    [|split; [done|right; by eapply ctx_hash_Raise]].
  cbv zeta. rewrite unique_conflict_lookups. cbn [nu_username nu_email].
  rewrite Hname, Hmail. cbn [truthy orb db_users].
  rewrite find_none_iff in Hname, Hmail.
  rewrite !fmap_app, !length_app. cbn [fmap list_fmap length username email].
  split_and!; [done|done|lia| |].
  - apply NoDup_app. split_and!; [done| |apply NoDup_singleton].
    intros name [u [-> Hu]]%list_elem_of_fmap Hin%list_elem_of_singleton.
    apply Hname in Hu. by apply bool_decide_eq_false_1 in Hu.
  - apply NoDup_app. split_and!; [done| |apply NoDup_singleton].
    intros mail [u [-> Hu]]%list_elem_of_fmap Hin%list_elem_of_singleton.
    apply Hmail in Hu. by apply bool_decide_eq_false_1 in Hu.
Qed.

(** The two lookups of [register], once [create_user] has answered. *)
Lemma created_user_found (user_create : UserCreate) (w w1 : World) (user : User) :
  (∀ u, u ∈ db_users w →
        username u ≠ uc_username user_create ∧ email u ≠ uc_email user_create) →
  create_user user_create w = (Return user, w1) →
  find (λ u, bool_decide (username u = uc_username user_create)) (db_users w1)
    = Some user ∧
  find (λ u, bool_decide (email u = uc_email user_create)) (db_users w1)
    = Some user ∧
  ∀ other, other ≠ uc_username user_create →
    find (λ u, bool_decide (username u = other)) (db_users w1)
    = find (λ u, bool_decide (username u = other)) (db_users w).
Proof.
  intros Hfree (_ & Hname & Hmail & _ & -> & _)%create_user_Return.
  rewrite !find_snoc.
  rewrite !(find_column_None _ _ (db_users w))
    by (intros u Hu; destruct (Hfree u Hu); assumption).
  rewrite !bool_decide_eq_true_2 by done.
  split_and!; [done|done|].
  intros other Hother. rewrite find_snoc.
  destruct (find _ (db_users w)); [done|].
  rewrite bool_decide_eq_false_2; [done|congruence].
Qed.

(** [get_current_user] only reads. *)
Lemma get_current_user_reads (token : string) (w : World) :
  (get_current_user settings token w).2 = w.
Proof.
  unfold get_current_user, bind, try_except, jwt_decode_now.
  destruct (jwt_decode _ _ _ _) as [payload|e]; cbn [fst snd].
  - destruct (payload !! "sub") as [[| | |name|]|]; try done.
    cbn [lift TokenPayload_validate sub].
    unfold get_user_by_username, select_first. by destruct (find _ _).
  - by destruct (is_JWTError e || is_ValidationError e).
Qed.

(** X6. A created principal is found again: after [create_user] has
    answered, the lookups by its username and by its email both answer
    that row, and a lookup by any other username answers as before. *)
Theorem create_user_then_lookup (user_create : UserCreate) (w w1 : World) (user : User)
    (other : string) :
  (∀ u, u ∈ db_users w →
        username u ≠ uc_username user_create ∧ email u ≠ uc_email user_create) →
  create_user user_create w = (Return user, w1) →
  get_user_by_username (uc_username user_create) w1 = (Return (Some user), w1) ∧
  get_user_by_email (uc_email user_create) w1 = (Return (Some user), w1) ∧
  (other ≠ uc_username user_create →
   (get_user_by_username other w1).1 = (get_user_by_username other w).1).
Proof.
  intros Hfree Hcreate.
  destruct (created_user_found user_create w w1 user Hfree Hcreate)
    as (Hname & Hmail & Hother).
  unfold get_user_by_username, get_user_by_email, select_first. cbn [fst].
  rewrite Hname, Hmail. split_and!; [done|done|].
  intros Hne. by rewrite Hother.
Qed.

(** X1. Register, log in, present the token: when the hasher accepts
    the password and the token lifetime of the settings is not negative
    and ends on a date, a principal registered with a free username and a
    free email can log in with the password it registered with, and the
    token it gets resolves to the very row the registration created. *)
Theorem register_login_resolve (user_in : UserCreate) (w : World) :
  jwt_supported (ALGORITHM settings) = true →
  0 ≤ ACCESS_TOKEN_EXPIRE_MINUTES settings →
  datetime_in_range
    (clock w + timedelta_minutes (ACCESS_TOKEN_EXPIRE_MINUTES settings)) = true →
  secret_error (uc_password user_in) = None →
  (∀ u, u ∈ db_users w →
        username u ≠ uc_username user_in ∧ email u ≠ uc_email user_in) →
  ∃ user w1 token,
    register user_in w = (Return (UserRead_from user), w1) ∧
    login_for_access_token settings (uc_username user_in) (uc_password user_in) w1
      = (Return {| access_token := token; token_type := "bearer" |}, w1) ∧
    get_current_user settings token w1 = (Return user, w1) ∧
    username user = uc_username user_in ∧
    email user = uc_email user_in.
Proof.
  intros Halg Hminutes Hrange Hok Hfree.
  destruct (register_free user_in w Hfree Hok)
    as (user & w1 & Hcreate & Hreg & _ & _ & Hclock & _ & Hname & Hmail & Hact & Hhash).
  destruct (created_user_found user_in w w1 user Hfree Hcreate) as (Hfind & _ & _).
  destruct (create_access_token_returns settings (SStr (username user))
              (Some (timedelta_minutes (ACCESS_TOKEN_EXPIRE_MINUTES settings))) w1 Halg)
    as [token Htoken]; [by rewrite token_expiry_minutes, Hclock|].
  exists user, w1, token. split_and!; [done| | |done|done].
  - rewrite login_outcome, Hfind.
    unfold verify_password. rewrite (ctx_verify_hash _ _ _ Hhash), Hact.
    by rewrite Htoken.
  - rewrite (get_current_user_issued settings _ _ w1 w1 token Htoken).
    rewrite bool_decide_eq_false_2.
    + unfold resolve. cbn [py_str]. by rewrite Hname, Hfind.
    + rewrite token_expiry_minutes.
      apply Z.le_ngt. unfold timegm, timedelta_minutes.
      apply Z.div_le_mono; lia.
Qed.

(** X2. The login of a principal that has just registered reads of the
    password what bcrypt reads of it: a password that the hasher accepts
    and that has the same first 72 bytes as the registered one is answered
    as the registered one is, and a password that the hasher refuses (a
    NUL byte, more than 4096 characters) makes the login raise that
    refusal, which is not the 401. *)
Theorem register_then_other_password (user_in : UserCreate) (w w1 : World)
    (response : UserRead) (password : string) :
  register user_in w = (Return response, w1) →
  (secret_error password = None →
   bcrypt_key password = bcrypt_key (uc_password user_in) →
   login_for_access_token settings (uc_username user_in) password w1
   = login_for_access_token settings (uc_username user_in) (uc_password user_in) w1) ∧
  (∀ e, secret_error password = Some e →
   login_for_access_token settings (uc_username user_in) password w1 = (Raise e, w1)).
Proof.
  intros [Hfree (user & Hcreate & _)]%register_Return.
  destruct (created_user_found user_in w w1 user Hfree Hcreate) as (Hfind & _ & _).
  apply create_user_Return in Hcreate as (Hhash & _).
  rewrite !login_outcome, Hfind. unfold verify_password. split.
  - intros Hok Hkey.
    by rewrite (ctx_verify_truncates password (uc_password user_in) _ Hok
                  (ctx_hash_Return _ _ _ Hhash) Hkey).
  - intros e He. by rewrite (ctx_verify_refuses _ _ _ _ _ Hhash He).
Qed.

(** X9. A stored hash that the library does not identify makes the login
    raise the library's [UnknownHashError]: it is neither the 401 nor the
    400, and no token is issued. *)
Theorem login_unidentified_hash (name password : string) (w : World) (user : User) :
  find (λ u, bool_decide (username u = name)) (db_users w) = Some user →
  ctx_identify (password_hash user) = false →
  login_for_access_token settings name password w = (Raise UnknownHashError, w).
Proof.
  intros Hfind Hid. rewrite login_outcome, Hfind.
  unfold verify_password. by rewrite ctx_verify_unknown.
Qed.

(** X7. The token of a login lives [ACCESS_TOKEN_EXPIRE_MINUTES] minutes,
    zero included: presented in [w'] it is rejected with the 401 when the
    whole seconds of the clock exceed those of the login plus that many
    minutes, and resolved to the principal of the name logged in with
    otherwise. *)
Theorem login_token_lifetime (name password : string) (w w' : World) (response : Token) :
  login_for_access_token settings name password w = (Return response, w) →
  get_current_user settings (access_token response) w' =
    if bool_decide (timegm (clock w
                            + timedelta_minutes (ACCESS_TOKEN_EXPIRE_MINUTES settings))
                    < timegm (clock w'))
    then (Raise credentials_exception, w')
    else resolve name w'.
Proof.
  rewrite login_outcome.
  destruct (find _ _) as [user|] eqn:Hfind; [|done].
  destruct (verify_password _ _) as [[|]|]; try done.
  destruct (is_active user); [|done].
  destruct (create_access_token _ _ _ w) as [[token|] w0] eqn:Htoken; [|done].
  intros [= <- Hw0]. subst w0. cbn [access_token].
  apply find_some in Hfind as [_ Hname]. apply bool_decide_eq_true_1 in Hname.
  rewrite (get_current_user_issued settings _ _ w w' token Htoken).
  cbn [py_str]. rewrite Hname.
  replace (token_expiry settings (clock w)
             (Some (timedelta_minutes (ACCESS_TOKEN_EXPIRE_MINUTES settings))))
    with (clock w + timedelta_minutes (ACCESS_TOKEN_EXPIRE_MINUTES settings)); [done|].
  unfold token_expiry. by destruct (timedelta_truthy _).
Qed.

(** X8. A token issued with a time-to-live of zero is not expired at
    once: it gets the default lifetime of the settings, and is accepted
    until the whole seconds of the clock exceed those of that expiry. *)
Theorem zero_ttl_token_lifetime (subject : py_subject) (w w' : World) (token : string) :
  create_access_token settings subject (Some 0) w = (Return token, w) →
  get_current_user settings token w' =
    if bool_decide (timegm (clock w
                            + timedelta_minutes (ACCESS_TOKEN_EXPIRE_MINUTES settings))
                    < timegm (clock w'))
    then (Raise credentials_exception, w')
    else resolve (py_str subject) w'.
Proof.
  intros Hissue.
  by rewrite (get_current_user_issued settings _ _ w w' token Hissue).
Qed.

(** X3. [get_current_user] fails closed.  Whatever the token, it answers
    in one of three ways: with a row of the store whose username is the
    ["sub"] of the decoded token; with the 401; or with the exception of
    the library, when that is not a [JWTError].  A ["sub"] that is not a
    string gets the 401 as well. *)
Theorem get_current_user_fails_closed (token : string) (w : World) :
  (∃ user payload,
     get_current_user settings token w = (Return user, w) ∧
     user ∈ db_users w ∧
     jwt_decode token (SECRET_KEY settings) [ALGORITHM settings] (clock w)
       = Return payload ∧
     payload !! "sub" = Some (VStr (username user))) ∨
  get_current_user settings token w = (Raise credentials_exception, w) ∨
  (∃ e,
     get_current_user settings token w = (Raise e, w) ∧
     jwt_decode token (SECRET_KEY settings) [ALGORITHM settings] (clock w) = Raise e ∧
     is_JWTError e = false ∧ is_ValidationError e = false).
Proof.
  destruct (jwt_decode token (SECRET_KEY settings) [ALGORITHM settings] (clock w))
    as [payload|e] eqn:Hdec.
  - destruct (payload !! "sub") as [v|] eqn:Hsub.
    + destruct v as [|b|z|name|us];
        try (right; left;
             unfold get_current_user, bind, try_except, jwt_decode_now;
             by rewrite Hdec, Hsub).
      rewrite (get_current_user_subject settings token w payload name Hdec Hsub).
      unfold resolve.
      destruct (find _ _) as [user|] eqn:Hfind; [|by right; left].
      apply find_some in Hfind as [Hin Hname].
      apply bool_decide_eq_true_1 in Hname. rewrite <- list_elem_of_In in Hin.
      left. exists user, payload. by rewrite Hname.
    + right; left. eapply get_current_user_no_subject; eauto.
  - destruct (is_JWTError e || is_ValidationError e) eqn:He.
    + right; left.
      unfold get_current_user, bind, try_except, jwt_decode_now.
      by rewrite Hdec, He.
    + right; right. exists e. apply orb_false_elim in He as He'.
      split_and!; [|done|apply He'|apply He'].
      unfold get_current_user, bind, try_except, jwt_decode_now.
      by rewrite Hdec, He.
Qed.

(** X4. Resolution and login only read: [get_current_user],
    [authenticate_user] and [login_for_access_token] leave the store, the
    clock and the entropy as they found them, whatever they answer. *)
Theorem handlers_read_only (token name password : string) (w : World) :
  (get_current_user settings token w).2 = w ∧
  (authenticate_user name password w).2 = w ∧
  (login_for_access_token settings name password w).2 = w.
Proof.
  split_and!.
  - apply get_current_user_reads.
  - unfold authenticate_user, bind, get_user_by_username, select_first, lift, ret.
    destruct (find _ _) as [user|]; [|done].
    by destruct (verify_password _ _) as [[|]|].
  - rewrite login_outcome.
    destruct (find _ _) as [user|]; [|done].
    destruct (verify_password _ _) as [[|]|]; try done.
    destruct (is_active user); [|done].
    pose proof (create_access_token_reads settings (SStr (username user))
                  (Some (timedelta_minutes (ACCESS_TOKEN_EXPIRE_MINUTES settings))) w)
      as Hw.
    by destruct (create_access_token _ _ _ w) as [[?|?] ?].
Qed.

End Composition.

(** ** Fitness records *)

Section FitnessProperties.

Context {jwt : Jose}.
Variable settings : Settings.
Variable float : Type.

Lemma insert_desc_Permutation (r : FitnessRecord float) (l : list (FitnessRecord float)) :
  insert_desc float r l ≡ₚ r :: l.
Proof.
  induction l as [|x l IH]; simpl; [done|].
  case_bool_decide; [done|].
  rewrite IH. apply Permutation_swap.
Qed.

Lemma order_by_Permutation (l : list (FitnessRecord float)) :
  order_by_created_at_desc float l ≡ₚ l.
Proof.
  induction l as [|x l IH]; simpl; [done|].
  by rewrite insert_desc_Permutation, IH.
Qed.

Lemma insert_desc_sorted (r : FitnessRecord float) (l : list (FitnessRecord float)) :
  newest_first float l → newest_first float (insert_desc float r l).
Proof.
  unfold newest_first. induction 1 as [|x l Hl IH Hx]; simpl.
  - repeat constructor.
  - case_bool_decide as Hle.
    + constructor; [by constructor|].
      constructor; [done|].
      eapply Forall_impl; [exact Hx|]. simpl. intros y Hy. lia.
    + constructor; [done|].
      rewrite insert_desc_Permutation. constructor; [lia|done].
Qed.

Lemma order_by_sorted (l : list (FitnessRecord float)) :
  newest_first float (order_by_created_at_desc float l).
Proof.
  induction l as [|x l IH]; simpl; [constructor|].
  by apply insert_desc_sorted.
Qed.

Lemma sql_limit_prefix {A} (n : Z) (l : list A) : sql_limit n l `prefix_of` l.
Proof.
  unfold sql_limit. case_bool_decide; [done|]. apply prefix_take.
Qed.

Lemma newest_first_prefix (l1 l2 : list (FitnessRecord float)) :
  l1 `prefix_of` l2 → newest_first float l2 → newest_first float l1.
Proof. intros [k ->]. apply StronglySorted_app_1_l. Qed.

(** The rows of one user, as [get_user_fitness_records] selects them. *)
Lemma selected_rows (user_id limit : Z) (s : FitnessWorld float) (r : FitnessRecord float) :
  r ∈ sql_limit limit
        (order_by_created_at_desc float
           (filter (λ r : FitnessRecord float, fr_user_id r = user_id) (fw_records s))) →
  r ∈ fw_records s ∧ fr_user_id r = user_id.
Proof.
  intros Hr.
  eapply elem_of_prefix in Hr; [|apply sql_limit_prefix].
  rewrite order_by_Permutation in Hr. by apply list_elem_of_filter in Hr as [? ?].
Qed.

(** The outcome of [read_fitness_records]: the resolver, then the query. *)
Lemma read_fitness_records_outcome (token : string) (limit : option Z)
    (s : FitnessWorld float) :
  read_fitness_records settings float token limit s =
    match (get_current_user settings token (fw_users s)).1 with
    | Return current_user =>
        (Return (sql_limit (default 5 limit)
                   (order_by_created_at_desc float
                      (filter (λ r : FitnessRecord float, fr_user_id r = id current_user)
                         (fw_records s)))), s)
    | Raise e => (Raise e, s)
    end.
Proof.
  unfold read_fitness_records, bindF, on_users, get_user_fitness_records.
  pose proof (get_current_user_reads settings token (fw_users s)) as Hw.
  destruct (get_current_user settings token (fw_users s)) as [[user|e] w'];
    simpl in *; subst w'; by destruct s.
Qed.

(** The outcome of [add_fitness_record]: the resolver, then the insert. *)
Lemma add_fitness_record_outcome (token : string)
    (record_in : FitnessRecordCreate float) (s : FitnessWorld float) :
  add_fitness_record settings float token record_in s =
    match (get_current_user settings token (fw_users s)).1 with
    | Return current_user =>
        let db_record := {| fr_id := next_record_id float (fw_records s);
                            fr_user_id := id current_user;
                            fr_created_at := clock (fw_users s);
                            fr_data := record_in |} in
        (Return db_record,
         {| fw_users := fw_users s; fw_records := fw_records s ++ [db_record] |})
    | Raise e => (Raise e, s)
    end.
Proof.
  unfold add_fitness_record, bindF, on_users, create_fitness_record.
  pose proof (get_current_user_reads settings token (fw_users s)) as Hw.
  destruct (get_current_user settings token (fw_users s)) as [[user|e] w'];
    simpl in *; subst w'; by destruct s.
Qed.

(** X10. What [read_fitness_records] returns are rows of the fitness
    table that belong to the principal the token resolves to, and to no
    one else, newest first; a limit that is not negative bounds their
    number, and when the principal has no more rows than the limit all of
    them are returned.  Nothing is written. *)
Theorem read_fitness_records_own_rows (token : string) (limit : option Z)
    (s s' : FitnessWorld float) (rows : list (FitnessRecord float)) :
  read_fitness_records settings float token limit s = (Return rows, s') →
  s' = s ∧
  ∃ current_user,
    get_current_user settings token (fw_users s) = (Return current_user, fw_users s) ∧
    (∀ r, r ∈ rows → r ∈ fw_records s ∧ fr_user_id r = id current_user) ∧
    newest_first float rows ∧
    (0 ≤ default 5 limit → Z.of_nat (length rows) ≤ default 5 limit) ∧
    (Z.of_nat (length (filter (λ r : FitnessRecord float,
                                 fr_user_id r = id current_user) (fw_records s)))
       ≤ default 5 limit →
     ∀ r, r ∈ fw_records s → fr_user_id r = id current_user → r ∈ rows).
Proof.
  rewrite read_fitness_records_outcome.
  pose proof (get_current_user_reads settings token (fw_users s)) as Hw.
  destruct (get_current_user settings token (fw_users s)) as [[user|e] w'];
    simpl in *; [|done]. subst w'. intros [= <- <-].
  split; [done|]. exists user. split_and!; [done| | | |].
  - intros r. apply selected_rows.
  - eapply newest_first_prefix; [apply sql_limit_prefix|apply order_by_sorted].
  - intros Hlimit. unfold sql_limit. rewrite bool_decide_eq_false_2 by lia.
    rewrite length_take. lia.
  - intros Hall r Hr Hown.
    assert (r ∈ order_by_created_at_desc float
                  (filter (λ r : FitnessRecord float, fr_user_id r = id user)
                     (fw_records s))) as Hin.
    { rewrite order_by_Permutation. by apply list_elem_of_filter. }
    unfold sql_limit. case_bool_decide; [done|].
    rewrite take_ge; [done|].
    rewrite order_by_Permutation. lia.
Qed.

(** X11. [add_fitness_record] writes for the principal of the token and
    for no one else: when the token resolves, one row is appended, with
    the body of the request and the [id] of that principal, and the rows
    that were there stay; when it does not, the answer is the resolver's
    and nothing is written.  The user store is never changed. *)
Theorem add_fitness_record_outcomes (token : string)
    (record_in : FitnessRecordCreate float) (s : FitnessWorld float) :
  match add_fitness_record settings float token record_in s with
  | (Return r, s') =>
      (∃ current_user,
         get_current_user settings token (fw_users s)
           = (Return current_user, fw_users s) ∧
         fr_user_id r = id current_user) ∧
      fr_data r = record_in ∧
      fw_records s' = fw_records s ++ [r] ∧
      fw_users s' = fw_users s
  | (Raise e, s') =>
      s' = s ∧ get_current_user settings token (fw_users s) = (Raise e, fw_users s)
  end.
Proof.
  rewrite add_fitness_record_outcome.
  pose proof (get_current_user_reads settings token (fw_users s)) as Hw.
  destruct (get_current_user settings token (fw_users s)) as [[user|e] w'];
    simpl in *; subst w'; [|done].
  split_and!; eauto.
Qed.

(** A list sorted newest first starts with its one newest row. *)
Lemma newest_first_head (r : FitnessRecord float) (k l : list (FitnessRecord float)) :
  newest_first float l →
  l ≡ₚ r :: k →
  (∀ x, x ∈ k → fr_created_at x < fr_created_at r) →
  ∃ rest, l = r :: rest.
Proof.
  intros Hsorted Hperm Hnewest.
  destruct l as [|y l'].
  { by apply Permutation_nil_cons in Hperm. }
  assert (y ∈ r :: k) as [->|Hy]%elem_of_cons
    by (rewrite <- Hperm; apply list_elem_of_here); [eauto|].
  assert (r ∈ y :: l') as [->|Hr]%elem_of_cons
    by (rewrite Hperm; apply list_elem_of_here); [eauto|].
  apply StronglySorted_inv in Hsorted as [_ Hall].
  rewrite Forall_forall in Hall. apply Hall in Hr. apply Hnewest in Hy. lia.
Qed.

(** X12. A record just added is the first one read: when the earlier
    rows of the principal are older than the new row and the limit is
    positive, [read_fitness_records] with the same token starts with the
    row that [add_fitness_record] returned. *)
Theorem add_then_read_fitness_record (token : string)
    (record_in : FitnessRecordCreate float) (limit : option Z)
    (s s' : FitnessWorld float) (r : FitnessRecord float) :
  add_fitness_record settings float token record_in s = (Return r, s') →
  (∀ x, x ∈ fw_records s → fr_user_id x = fr_user_id r →
        fr_created_at x < fr_created_at r) →
  0 < default 5 limit →
  ∃ rest, read_fitness_records settings float token limit s' = (Return (r :: rest), s').
Proof.
  rewrite add_fitness_record_outcome, read_fitness_records_outcome.
  destruct (get_current_user settings token (fw_users s)) as [[user|e] w'] eqn:Hget;
    simpl; [|done].
  intros [= <- <-] Holder Hlimit. simpl in *. rewrite Hget. simpl.
  set (r := {| fr_id := next_record_id float (fw_records s);
               fr_user_id := id user;
               fr_created_at := clock (fw_users s);
               fr_data := record_in |}) in *.
  rewrite filter_app, filter_cons_True, filter_nil by done.
  set (mine := filter (λ r : FitnessRecord float, fr_user_id r = id user) (fw_records s)).
  destruct (newest_first_head r mine (order_by_created_at_desc float (mine ++ [r])))
    as [rest Hrest].
  - apply order_by_sorted.
  - rewrite order_by_Permutation. by rewrite Permutation_app_comm.
  - intros x [Hx Hown]%list_elem_of_filter. by apply Holder.
  - rewrite Hrest. unfold sql_limit. rewrite bool_decide_eq_false_2 by lia.
    destruct (Z.to_nat (default 5 limit)) as [|n] eqn:Hn; [lia|]. simpl. eauto.
Qed.

(** X13. Adding a record for one principal does not change what another
    principal reads. *)
Theorem add_fitness_record_other_reader (token token' : string)
    (record_in : FitnessRecordCreate float) (limit : option Z)
    (s s' : FitnessWorld float) (r : FitnessRecord float) (reader : User) :
  add_fitness_record settings float token record_in s = (Return r, s') →
  get_current_user settings token' (fw_users s) = (Return reader, fw_users s) →
  id reader ≠ fr_user_id r →
  (read_fitness_records settings float token' limit s').1
    = (read_fitness_records settings float token' limit s).1.
Proof.
  rewrite add_fitness_record_outcome, !read_fitness_records_outcome.
  destruct (get_current_user settings token (fw_users s)) as [[user|e] w']; simpl; [|done].
  intros [= <- <-] Hreader Hother. simpl in *. rewrite Hreader. simpl.
  by rewrite filter_app, filter_cons_False, filter_nil, app_nil_r.
Qed.

End FitnessProperties.

(** ** The further scenarios, evaluated *)

Import Cases.

Example add_alice_record :
  add_fitness_record Ref.settings Q alice_token second_record fitness_world
    = (Return alice_new_row, fitness_world_added).
Proof. reflexivity. Qed.

Example read_alice_records :
  read_fitness_records Ref.settings Q alice_token None fitness_world_added
    = (Return [alice_new_row; alice_row], fitness_world_added).
Proof. reflexivity. Qed.

Example read_without_token :
  read_fitness_records Ref.settings Q "garbage" None fitness_world
    = (Raise credentials_exception, fitness_world).
Proof. reflexivity. Qed.

Lemma register_keeps_unique_witness :
  match register clive_in world_alice with
  | (Return response, w') =>
      ur_username response = uc_username clive_in ∧
      ur_email response = uc_email clive_in ∧
      length (db_users w') = S (length (db_users world_alice)) ∧
      NoDup (username <$> db_users w') ∧
      NoDup (email <$> db_users w')
  | (Raise e, w') =>
      w' = world_alice ∧
      (e = HTTPException HTTP_400_BAD_REQUEST "User already exists." ∅ ∨
       secret_error (uc_password clive_in) = Some e)
  end.
Proof.
  apply (register_keeps_unique clive_in world_alice).
  - apply NoDup_singleton.
  - apply NoDup_singleton.
Defined.

Lemma create_user_then_lookup_witness :
  get_user_by_username (uc_username alice_in) world_alice
    = (Return (Some alice), world_alice) ∧
  get_user_by_email (uc_email alice_in) world_alice
    = (Return (Some alice), world_alice) ∧
  ("clive" ≠ uc_username alice_in →
   (get_user_by_username "clive" world_alice).1
   = (get_user_by_username "clive" Ref.world0).1).
Proof.
  apply (create_user_then_lookup alice_in Ref.world0 world_alice alice "clive").
  - intros u Hu. by apply elem_of_nil in Hu.
  - reflexivity.
Defined.

Lemma register_login_resolve_witness :
  ∃ user w1 token,
    register alice_in Ref.world0 = (Return (UserRead_from user), w1) ∧
    login_for_access_token Ref.settings (uc_username alice_in) (uc_password alice_in) w1
      = (Return {| access_token := token; token_type := "bearer" |}, w1) ∧
    get_current_user Ref.settings token w1 = (Return user, w1) ∧
    username user = uc_username alice_in ∧
    email user = uc_email alice_in.
Proof.
  apply (register_login_resolve Ref.settings alice_in Ref.world0).
  - reflexivity.
  - vm_compute. discriminate.
  - reflexivity.
  - reflexivity.
  - intros u Hu. by apply elem_of_nil in Hu.
Defined.

Lemma register_then_other_password_witness :
  (secret_error long_b = None →
   bcrypt_key long_b = bcrypt_key (uc_password dora_in) →
   login_for_access_token Ref.settings (uc_username dora_in) long_b world_dora
   = login_for_access_token Ref.settings (uc_username dora_in) (uc_password dora_in)
       world_dora) ∧
  (∀ e, secret_error long_b = Some e →
   login_for_access_token Ref.settings (uc_username dora_in) long_b world_dora
   = (Raise e, world_dora)).
Proof.
  apply (register_then_other_password Ref.settings dora_in Ref.world0 world_dora
           (UserRead_from dora) long_b).
  reflexivity.
Defined.

(** [dora] registered with [long_c]; [long_b] logs in to her account, and a
    password with a NUL byte makes the login raise. *)
Example login_dora_other_password :
  long_b ≠ uc_password dora_in ∧
  login_for_access_token Ref.settings "dora" long_b world_dora
    = (Return {| access_token := dora_token;
                 token_type := "bearer" |}, world_dora) ∧
  login_for_access_token Ref.settings "dora" nul_password world_dora
    = (Raise PasswordValueError, world_dora).
Proof. split_and!; [discriminate|reflexivity|reflexivity]. Qed.

Lemma login_unidentified_hash_witness :
  login_for_access_token Ref.settings "alice" "secret1" world_corrupt
    = (Raise UnknownHashError, world_corrupt).
Proof.
  apply (login_unidentified_hash Ref.settings "alice" "secret1" world_corrupt
           alice_corrupt).
  - reflexivity.
  - reflexivity.
Defined.

Lemma login_token_lifetime_witness :
  get_current_user Ref.settings
    (access_token {| access_token := alice_token; token_type := "bearer" |}) world_later =
    if bool_decide (timegm (clock world_alice
                            + timedelta_minutes (ACCESS_TOKEN_EXPIRE_MINUTES Ref.settings))
                    < timegm (clock world_later))
    then (Raise credentials_exception, world_later)
    else resolve "alice" world_later.
Proof.
  apply (login_token_lifetime Ref.settings "alice" "secret1" world_alice world_later).
  reflexivity.
Defined.

Lemma zero_ttl_token_lifetime_witness :
  get_current_user Ref.settings alice_token world_deactivated =
    if bool_decide (timegm (clock world_alice
                            + timedelta_minutes (ACCESS_TOKEN_EXPIRE_MINUTES Ref.settings))
                    < timegm (clock world_deactivated))
    then (Raise credentials_exception, world_deactivated)
    else resolve (py_str (SStr "alice")) world_deactivated.
Proof.
  apply (zero_ttl_token_lifetime Ref.settings (SStr "alice") world_alice
           world_deactivated alice_token).
  reflexivity.
Defined.

Lemma read_fitness_records_own_rows_witness :
  fitness_world_added = fitness_world_added ∧
  ∃ current_user,
    get_current_user Ref.settings alice_token (fw_users fitness_world_added)
      = (Return current_user, fw_users fitness_world_added) ∧
    (∀ r, r ∈ [alice_new_row; alice_row] →
          r ∈ fw_records fitness_world_added ∧ fr_user_id r = id current_user) ∧
    newest_first Q [alice_new_row; alice_row] ∧
    (0 ≤ default 5 None → Z.of_nat (length [alice_new_row; alice_row]) ≤ default 5 None) ∧
    (Z.of_nat (length (filter (λ r : FitnessRecord Q,
                                 fr_user_id r = id current_user)
                         (fw_records fitness_world_added)))
       ≤ default 5 None →
     ∀ r, r ∈ fw_records fitness_world_added → fr_user_id r = id current_user →
          r ∈ [alice_new_row; alice_row]).
Proof.
  apply (read_fitness_records_own_rows Ref.settings Q alice_token None
           fitness_world_added fitness_world_added [alice_new_row; alice_row]).
  reflexivity.
Defined.

Lemma add_then_read_fitness_record_witness :
  ∃ rest,
    read_fitness_records Ref.settings Q alice_token None fitness_world_added
      = (Return (alice_new_row :: rest), fitness_world_added).
Proof.
  apply (add_then_read_fitness_record Ref.settings Q alice_token second_record None
           fitness_world fitness_world_added alice_new_row).
  - reflexivity.
  - intros x Hx Hown. repeat apply elem_of_cons in Hx as [->|Hx]; try done.
    by apply elem_of_nil in Hx.
  - reflexivity.
Defined.

Lemma add_fitness_record_other_reader_witness :
  (read_fitness_records Ref.settings Q clive_token None fitness_world_added).1
    = (read_fitness_records Ref.settings Q clive_token None fitness_world).1.
Proof.
  apply (add_fitness_record_other_reader Ref.settings Q alice_token clive_token
           second_record None fitness_world fitness_world_added alice_new_row clive).
  - reflexivity.
  - reflexivity.
  - discriminate.
Defined.
